(** * LeanMinHash: the frozen MinHash sketch of datasketch

    A shallow embedding of [datasketch/lean_minhash.py]: the class
    [LeanMinHash] with its binary codec ([bytesize], [serialize],
    [deserialize]), [copy], [update] and the merge operator [union],
    together with the parts of Python's [struct] module and of numpy that
    these methods call. *)

From Stdlib Require Import ZArith List String Bool Lia Permutation.
From Stdlib Require Import Strings.Byte.
Import ListNotations.
Open Scope Z_scope.

(** ** Python exceptions *)

Inductive exn_class :=
  ValueError | TypeError | StructError | AttributeError | IndexError.

(** An exception is its class and, where the source gives one, its message;
    the messages of exceptions raised inside [struct] and numpy are left
    out ([None]). *)
Record exn := Exn { exn_cls : exn_class; exn_msg : option string }.

Inductive exc (A : Type) : Type :=
| Ok (a : A)
| Raise (e : exn).
Arguments Ok {A} a.
Arguments Raise {A} e.

Definition bind {A B : Type} (m : exc A) (k : A -> exc B) : exc B :=
  match m with
  | Ok a => k a
  | Raise e => Raise e
  end.

Notation "x <- m ;; k" := (bind m (fun x => k))
  (at level 61, m at next level, right associativity).

(** ** Python values

    The values that reach the fields of a sketch: integers, strings, and
    sequences of integers (a tuple of ints or a numpy array of unsigned
    integers). *)
Inductive pyval :=
| PyInt (n : Z)
| PyStr (s : string)
| PyInts (l : list Z).

Fixpoint list_Z_eqb (a b : list Z) : bool :=
  match a, b with
  | [], [] => true
  | x :: a', y :: b' => (x =? y) && list_Z_eqb a' b'
  | _, _ => false
  end.

(** Python's [==] on these values. *)
Definition pyval_eqb (a b : pyval) : bool :=
  match a, b with
  | PyInt x, PyInt y => x =? y
  | PyStr s, PyStr t => String.eqb s t
  | PyInts l, PyInts m => list_Z_eqb l m
  | _, _ => false
  end.

(** ** Bytes and integers *)

Definition byte_of_Z (z : Z) : byte :=
  match Byte.of_N (Z.to_N (z mod 256)) with
  | Some b => b
  | None => x00
  end.

Definition Z_of_byte (b : byte) : Z := Z.of_N (Byte.to_N b).

(** The [k] low bytes of [v], least significant first. *)
Fixpoint le_bytes (k : nat) (v : Z) : list byte :=
  match k with
  | O => []
  | S k' => byte_of_Z v :: le_bytes k' (v / 256)
  end.

(** The unsigned integer a little-endian byte string stands for. *)
Fixpoint le_value (bs : list byte) : Z :=
  match bs with
  | [] => 0
  | b :: r => Z_of_byte b + 256 * le_value r
  end.

Inductive endian := Little | Big.

Definition int_to_bytes (e : endian) (k : nat) (v : Z) : list byte :=
  match e with
  | Little => le_bytes k v
  | Big => rev (le_bytes k v)
  end.

Definition int_from_bytes (e : endian) (bs : list byte) : Z :=
  match e with
  | Little => le_value bs
  | Big => le_value (rev bs)
  end.

(** ** The struct module

    A format is a byte-order character followed by items, each a repeat
    count and a format code.  The codes are those the sketch uses: [B],
    [H], [I], [L], [Q] (unsigned) and [i] (signed). *)

Inductive byteorder :=
| Native        (* @ : native order, native sizes, native alignment *)
| NativeStd     (* = : native order, standard sizes, no alignment *)
| LittleEndian  (* < *)
| BigEndian     (* > *)
| Network.      (* ! : big-endian *)

Inductive code := cB | cH | cI | cL | cQ | ci.

Definition fmt := list (nat * code).

Definition std_size (c : code) : Z :=
  match c with
  | cB => 1
  | cH => 2
  | cI | cL | ci => 4
  | cQ => 8
  end.

Definition code_signed (c : code) : bool :=
  match c with
  | ci => true
  | _ => false
  end.

Section Host.

(** [sys.byteorder] of the interpreter. *)
Variable sys_byteorder : endian.

(** Whether a C [long] has 8 bytes (LP64: Linux, macOS) or 4 (LLP64:
    Windows, and the 32-bit platforms). *)
Variable long64 : bool.

Definition native_size (c : code) : Z :=
  match c with
  | cB => 1
  | cH => 2
  | cI | ci => 4
  | cL => if long64 then 8 else 4
  | cQ => 8
  end.

Definition code_size (bo : byteorder) (c : code) : Z :=
  match bo with
  | Native => native_size c
  | _ => std_size c
  end.

Definition order_endian (bo : byteorder) : endian :=
  match bo with
  | Native | NativeStd => sys_byteorder
  | LittleEndian => Little
  | BigEndian | Network => Big
  end.

(** In native mode an item starts at a multiple of its size; the other
    modes never pad. *)
Definition align (bo : byteorder) (off : Z) (c : code) : Z :=
  match bo with
  | Native => ((off + native_size c - 1) / native_size c) * native_size c
  | _ => off
  end.

(** [struct.calcsize], continued from offset [off]. *)
Fixpoint calcsize_from (bo : byteorder) (off : Z) (f : fmt) : Z :=
  match f with
  | [] => off
  | (n, c) :: r =>
      calcsize_from bo (align bo off c + Z.of_nat n * code_size bo c) r
  end.

Definition struct_calcsize (bo : byteorder) (f : fmt) : Z :=
  calcsize_from bo 0 f.

(** The number of values a format packs. *)
Definition fmt_len (f : fmt) : nat :=
  fold_right (fun it acc => (fst it + acc)%nat) O f.

Definition struct_error {A : Type} : exc A := Raise (Exn StructError None).

(** One value packed with code [c]: an integer in the range of the code,
    or [struct.error]. *)
Definition pack_value (bo : byteorder) (c : code) (v : pyval)
  : exc (list byte) :=
  match v with
  | PyInt z =>
      let bits := 8 * code_size bo c in
      let lo := if code_signed c then - 2 ^ (bits - 1) else 0 in
      let hi := if code_signed c then 2 ^ (bits - 1) else 2 ^ bits in
      if (lo <=? z) && (z <? hi)
      then Ok (int_to_bytes (order_endian bo) (Z.to_nat (code_size bo c)) z)
      else struct_error
  | _ => struct_error
  end.

(** [n] values packed with code [c], taken from the front of [vals]. *)
Fixpoint pack_reps (bo : byteorder) (c : code) (n : nat) (vals : list pyval)
  : exc (list byte * list pyval) :=
  match n with
  | O => Ok ([], vals)
  | S n' =>
      match vals with
      | [] => struct_error
      | v :: vals' =>
          bs <- pack_value bo c v ;;
          r <- pack_reps bo c n' vals' ;;
          Ok (bs ++ fst r, snd r)
      end
  end.

Definition zeros (n : Z) : list byte := repeat x00 (Z.to_nat n).

(** The packed bytes of [vals] under the items [f], the first item starting
    at offset [off]; pad bytes are zero. *)
Fixpoint pack_from (bo : byteorder) (off : Z) (f : fmt) (vals : list pyval)
  : exc (list byte) :=
  match f with
  | [] => match vals with [] => Ok [] | _ => struct_error end
  | (n, c) :: r =>
      let start := align bo off c in
      p <- pack_reps bo c n vals ;;
      rest <- pack_from bo (start + Z.of_nat n * code_size bo c) r (snd p) ;;
      Ok (zeros (start - off) ++ fst p ++ rest)
  end.

(** An offset into a buffer of [len] bytes for an access of [size] bytes,
    as [pack_into] and [unpack_from] resolve it: a negative offset counts
    from the end. *)
Definition resolve_offset (len size offset : Z) : exc Z :=
  if offset <? 0 then
    if 0 <? offset + size then struct_error
    else if offset + len <? 0 then struct_error
    else Ok (offset + len)
  else if len - offset <? size then struct_error
  else Ok offset.

(** What [serialize] may be handed as [buf]: a writable bytes-like object,
    or an [io.BufferedWriter], which is no buffer. *)
Inductive buffer :=
| ByteArray (data : list byte)
| BufferedWriter.

Definition blen (data : list byte) : Z := Z.of_nat (List.length data).

(** The bytes [src] written over [data] from position [pos] on. *)
Definition splice (data : list byte) (pos : Z) (src : list byte)
  : list byte :=
  firstn (Z.to_nat pos) data ++ src
    ++ skipn (Z.to_nat pos + List.length src) data.

(** [struct.pack_into(fmt, buf, offset, *vals)]; the result is the buffer
    after the call.  What a call that raises leaves in the buffer is not
    modelled. *)
Definition struct_pack_into (bo : byteorder) (f : fmt) (buf : buffer)
    (offset : Z) (vals : list pyval) : exc buffer :=
  if negb (Nat.eqb (List.length vals) (fmt_len f)) then struct_error
  else
    match buf with
    | BufferedWriter => Raise (Exn TypeError None)
    | ByteArray data =>
        pos <- resolve_offset (blen data) (struct_calcsize bo f) offset ;;
        bs <- pack_from bo 0 f vals ;;
        Ok (ByteArray (splice data pos bs))
    end.

(** One value read with code [c]. *)
Definition unpack_value (bo : byteorder) (c : code) (bs : list byte) : Z :=
  let u := int_from_bytes (order_endian bo) bs in
  if code_signed c && (2 ^ (8 * code_size bo c - 1) <=? u)
  then u - 2 ^ (8 * code_size bo c)
  else u.

Fixpoint unpack_reps (bo : byteorder) (c : code) (n : nat) (bs : list byte)
  : list Z :=
  match n with
  | O => []
  | S n' =>
      let k := Z.to_nat (code_size bo c) in
      unpack_value bo c (firstn k bs) :: unpack_reps bo c n' (skipn k bs)
  end.

(** The values of the items [f] read from [bs], whose first byte is at
    offset [off] of the format. *)
Fixpoint unpack_at (bo : byteorder) (off : Z) (f : fmt) (bs : list byte)
  : list Z :=
  match f with
  | [] => []
  | (n, c) :: r =>
      let start := align bo off c in
      let body := skipn (Z.to_nat (start - off)) bs in
      let sz := Z.of_nat n * code_size bo c in
      unpack_reps bo c n body
        ++ unpack_at bo (start + sz) r (skipn (Z.to_nat sz) body)
  end.

(** [struct.unpack_from(fmt, buf, offset)] on a bytes-like [buf]. *)
Definition struct_unpack_from (bo : byteorder) (f : fmt) (buf : list byte)
    (offset : Z) : exc (list Z) :=
  pos <- resolve_offset (blen buf) (struct_calcsize bo f) offset ;;
  Ok (unpack_at bo 0 f (skipn (Z.to_nat pos) buf)).

(** ** numpy *)

(** The unsigned integer dtypes, [np.dtype('u1')] to [np.dtype('u8')]. *)
Inductive np_dtype := U1 | U2 | U4 | U8.

Definition itemsize (d : np_dtype) : Z :=
  match d with
  | U1 => 1
  | U2 => 2
  | U4 => 4
  | U8 => 8
  end.

(** [dtype.char]: numpy names a sized integer type after the first C type
    of that size among long, long long, int, short and char, so the 8-byte
    type is [L] where a long has 8 bytes and [Q] elsewhere, and the 4-byte
    type is [I] where a long has 8 bytes and [L] elsewhere. *)
Definition dtype_char (d : np_dtype) : code :=
  match d with
  | U1 => cB
  | U2 => cH
  | U4 => if long64 then cI else cL
  | U8 => if long64 then cL else cQ
  end.

(** [np.dtype(f"{byteorder}u{n_bytes}")]: a TypeError unless [n_bytes] is
    the size of an integer type. *)
Definition np_dtype_of (n_bytes : Z) : exc np_dtype :=
  match n_bytes with
  | 1 => Ok U1
  | 2 => Ok U2
  | 4 => Ok U4
  | 8 => Ok U8
  | _ => Raise (Exn TypeError None)
  end.

(** [np.minimum] of two arrays of one shape. *)
Fixpoint np_minimum (a b : list Z) : list Z :=
  match a, b with
  | x :: a', y :: b' => Z.min x y :: np_minimum a' b'
  | _, _ => []
  end.

(** [np.minimum.reduce] over a list of arrays: the rows are stacked and
    reduced along the first axis, from the first row on; no rows, or rows
    of different lengths, are a ValueError. *)
Definition np_minimum_reduce (rows : list (list Z)) : exc (list Z) :=
  match rows with
  | [] => Raise (Exn ValueError None)
  | r :: rs =>
      if forallb (fun x => Nat.eqb (List.length x) (List.length r)) rs
      then Ok (fold_left np_minimum rs r)
      else Raise (Exn ValueError None)
  end.

(** ** The sketch *)

(** What [LeanMinHash.__init__] reads of the [MinHash] it is given. *)
Record MinHash := mkMinHash {
  mh_seed : pyval;
  mh_hashvalues : list Z;
  mh_dtype : np_dtype;
  mh_n_bytes : Z
}.

(** A LeanMinHash whose slots are set.  [dtype] and [n_bytes] are bound by
    [__init__] and [deserialize] only: [copy] and [union] build their
    result with [object.__new__] and set the two slots alone. *)
Record LeanMinHash := mkLeanMinHash {
  seed : pyval;
  hashvalues : list Z;
  dtype : option np_dtype;
  n_bytes : option Z
}.

(** An instance on which [_initialize_slots] has not run yet. *)
Record instance := mkInstance {
  inst_dtype : option np_dtype;
  inst_n_bytes : option Z
}.

Definition object_new : instance := mkInstance None None.

(** [MinHash._parse_hashvalues], which [datasketch/minhash.py] defines: it
    turns the hash values it is handed into the array the sketch keeps. *)
Variable _parse_hashvalues : pyval -> exc (list Z).

Definition __slots__ : string * string := ("seed", "hashvalues")%string.

Definition _initialize_slots (self : instance) (seed hashvalues : pyval)
  : exc LeanMinHash :=
  hv <- _parse_hashvalues hashvalues ;;
  Ok (mkLeanMinHash seed hv (inst_dtype self) (inst_n_bytes self)).

Definition __init__ (minhash : MinHash) : exc LeanMinHash :=
  let self := mkInstance (Some (mh_dtype minhash)) (Some (mh_n_bytes minhash))
  in
  _initialize_slots self (mh_seed minhash) (PyInts (mh_hashvalues minhash)).

(** [update] raises and leaves [self] as it was: the result is the outcome
    of the call and the object after it. *)
Definition update (self : LeanMinHash) (b : pyval)
  : exc unit * LeanMinHash :=
  (Raise (Exn TypeError (Some "Cannot update a LeanMinHash"%string)), self).

Definition copy (self : LeanMinHash) : exc LeanMinHash :=
  let lmh := object_new in
  _initialize_slots lmh (PyStr (fst __slots__)) (PyStr (snd __slots__)).

(** Modelled from the spec: [MinHash.__len__] is not in this file; the
    length of a sketch is its width, the number of its slots. *)
Definition len (self : LeanMinHash) : nat := List.length (hashvalues self).

(** Modelled from the spec: [MinHash.__eq__] is not in this file; two
    sketches are equal iff their seeds are equal and their slots are equal
    elementwise. *)
Definition equals (a b : LeanMinHash) : bool :=
  pyval_eqb (seed a) (seed b) && list_Z_eqb (hashvalues a) (hashvalues b).

Definition get_dtype (self : LeanMinHash) : exc np_dtype :=
  match dtype self with
  | Some d => Ok d
  | None => Raise (Exn AttributeError None)
  end.

Definition bytesize (self : LeanMinHash) (byteorder : byteorder) : exc Z :=
  let seed_size := struct_calcsize byteorder [(1%nat, cB)] in
  let length_size := struct_calcsize byteorder [(1%nat, ci)] in
  let n_byte_size := struct_calcsize byteorder [(1%nat, cB)] in
  d <- get_dtype self ;;
  let hashvalue_size := struct_calcsize byteorder [(1%nat, dtype_char d)] in
  Ok (seed_size + length_size + n_byte_size
      + Z.of_nat (len self) * hashvalue_size).

(** The format [serialize] builds, [f"{byteorder}HBB{len(self)}{char}"],
    without its byte-order character. *)
Definition serialize_fmt (n : nat) (d : np_dtype) : fmt :=
  [(1%nat, cH); (1%nat, cB); (1%nat, cB); (n, dtype_char d)].

Definition serialize (self : LeanMinHash) (buf : buffer)
    (byteorder : byteorder) (offset : Z) : exc buffer :=
  too_small <-
    match buf with
    | BufferedWriter => Ok false
    | ByteArray data =>
        size <- bytesize self Native ;; Ok (blen data <? size)
    end ;;
  if (too_small : bool) then
    Raise (Exn ValueError (Some
      "The buffer does not have enough space                    for holding this MinHash."%string))
  else
    d <- get_dtype self ;;
    let fmt := serialize_fmt (len self) d in
    struct_pack_into byteorder fmt buf offset
      (PyInt (Z.of_nat (len self)) :: seed self :: PyInt (itemsize d)
         :: map PyInt (hashvalues self)).

(** [deserialize] rebinds its [byteorder] argument before it reads it. *)
Definition deserialize (buf : list byte) (byteorder : byteorder)
  : exc LeanMinHash :=
  let byteorder :=
    match sys_byteorder with
    | Little => LittleEndian
    | Big => BigEndian
    end in
  let fmt_seed_size : fmt := [(1%nat, cH); (1%nat, cB); (1%nat, cB)] in
  header <- struct_unpack_from byteorder fmt_seed_size buf 0 ;;
  match header with
  | [num_perm; seed; n_bytes] =>
      let offset := struct_calcsize byteorder fmt_seed_size in
      dtype <- np_dtype_of n_bytes ;;
      let fmt_hash : fmt := [(Z.to_nat num_perm, dtype_char dtype)] in
      hashvalues <- struct_unpack_from byteorder fmt_hash buf offset ;;
      let lmh := mkInstance (Some dtype) (Some n_bytes) in
      _initialize_slots lmh (PyInt seed) (PyInts hashvalues)
  | _ => Raise (Exn ValueError None) (* a header has three items *)
  end.

Definition union (lmhs : list LeanMinHash) : exc LeanMinHash :=
  if (List.length lmhs <? 2)%nat then
    Raise (Exn ValueError (Some "Cannot union less than 2 MinHash"%string))
  else
    match lmhs with
    | [] => Raise (Exn IndexError None)
    | first :: _ =>
        let num_perm := len first in
        let seed' := seed first in
        if existsb (fun m => negb (pyval_eqb seed' (seed m))
                             || negb (Nat.eqb num_perm (len m))) lmhs
        then
          Raise (Exn ValueError (Some
            "The unioning MinHash must have the                    same seed, number of permutation functions and hashobj"%string))
        else
          hashvalues <- np_minimum_reduce (map hashvalues lmhs) ;;
          let lmh := object_new in
          _initialize_slots lmh seed' (PyInts hashvalues)
    end.

(** The builtin [hash], on the pair of the seed and the tuple of the hash
    values. *)
Variable hash : pyval * list Z -> Z.

Definition __hash__ (self : LeanMinHash) : Z :=
  hash (seed self, hashvalues self).

End Host.

(** ** Notions the statements use *)

(** Modelled from the spec: [MinHash._parse_hashvalues] is not in this
    file; it keeps a sequence of slot values as it is.  It is the instance
    the examples run with; numpy does not read a string as an array of
    unsigned integers. *)
Definition parse_array (v : pyval) : exc (list Z) :=
  match v with
  | PyInts l => Ok l
  | _ => Raise (Exn ValueError None)
  end.

(** Sketches are pairwise compatible: they share seed and width. *)
Definition compatible (lmhs : list LeanMinHash) : Prop :=
  forall a b, In a lmhs -> In b lmhs -> seed a = seed b /\ len a = len b.

(** Sketches that do not all share seed and width. *)
Definition incompatible (lmhs : list LeanMinHash) : Prop :=
  exists a b, In a lmhs /\ In b lmhs
              /\ (seed a <> seed b \/ len a <> len b).

(** The rows of a reduction have one length [n]. *)
Definition rows_of_length (n : nat) (rows : list (list Z)) : Prop :=
  Forall (fun r => List.length r = n) rows.

(** [m] is the minimum of the values [l]. *)
Definition is_min (m : Z) (l : list Z) : Prop :=
  In m l /\ Forall (fun x => m <= x) l.

(** Slot [i] of a sketch. *)
Definition slot (i : nat) (m : LeanMinHash) : Z := nth i (hashvalues m) 0.

(** A valid sketch, as the wire format understands it: a seed of one byte,
    at least one slot, a precision among 1, 2, 4 and 8 bytes, and slot
    values that fit the precision. *)
Definition valid (s : LeanMinHash) : Prop :=
  (exists z, seed s = PyInt z /\ 0 <= z <= 255)
  /\ (0 < len s)%nat
  /\ (exists d, dtype s = Some d /\ n_bytes s = Some (itemsize d)
       /\ Forall (fun v => 0 <= v < 2 ^ (8 * itemsize d)) (hashvalues s)).

(** The round trip of the codec on one host: [s] serialized at offset 0 of
    a zeroed bytearray of [n] bytes, and that buffer deserialized with the
    same byte order. *)
Definition roundtrip (sys_byteorder : endian) (long64 : bool)
    (parse : pyval -> exc (list Z)) (s : LeanMinHash) (bo : byteorder)
    (n : nat) : exc LeanMinHash :=
  buf <- serialize sys_byteorder long64 s (ByteArray (repeat x00 n)) bo 0 ;;
  match buf with
  | ByteArray data => deserialize sys_byteorder long64 parse data bo
  | BufferedWriter => Raise (Exn TypeError None)
  end.

(** A byte string, written as the list of its byte values. *)
Definition bytes_of (l : list Z) : list byte := map byte_of_Z l.

(** The wire layout of the spec: the width on two bytes, the seed on one,
    the precision on one, then the slots, each on [slot_size] bytes, all
    unsigned and in one byte order. *)
Definition enc (e : endian) (size : Z) (v : Z) : list byte :=
  int_to_bytes e (Z.to_nat size) v.

Definition wire (e : endian) (slot_size width seed precision : Z)
    (slots : list Z) : list byte :=
  enc e 2 width ++ enc e 1 seed ++ enc e 1 precision
    ++ flat_map (enc e slot_size) slots.

(** The sketch of seed 1 with the four slots 10, 20, 30, 40 of four bytes
    each, and the sketch of seed 1 with the one slot 7 of one byte. *)
Definition sketch_4x4 : LeanMinHash :=
  mkLeanMinHash (PyInt 1) [10; 20; 30; 40] (Some U4) (Some 4).

Definition sketch_1x1 : LeanMinHash :=
  mkLeanMinHash (PyInt 1) [7] (Some U1) (Some 1).

(** Three sketches of seed 42 and width 4, and one of seed 43. *)
Definition sketch_A : LeanMinHash :=
  mkLeanMinHash (PyInt 42) [5; 9; 2; 7] (Some U4) (Some 4).

Definition sketch_B : LeanMinHash :=
  mkLeanMinHash (PyInt 42) [3; 10; 1; 8] (Some U4) (Some 4).

Definition sketch_C : LeanMinHash :=
  mkLeanMinHash (PyInt 42) [4; 4; 4; 4] (Some U4) (Some 4).

Definition sketch_D : LeanMinHash :=
  mkLeanMinHash (PyInt 43) [5; 9; 2; 7] (Some U4) (Some 4).

(** * Properties *)

Section Properties.

Variable sys_byteorder : endian.
Variable long64 : bool.
Variable parse : pyval -> exc (list Z).

(** What the sketch needs of [_parse_hashvalues]: a sequence of integers
    comes back as it went in. *)
Hypothesis parse_ints : forall l, parse (PyInts l) = Ok l.

(** ** Equality of Python values *)

Lemma list_Z_eqb_eq (a b : list Z) : list_Z_eqb a b = true <-> a = b.
Proof.
  revert b; induction a as [|x a IH]; intros [|y b]; simpl;
    try (split; [discriminate | discriminate]); try tauto.
  rewrite andb_true_iff, Z.eqb_eq, IH.
  split; [intros [-> ->]; reflexivity | intros E; inversion E; auto].
Qed.

Lemma pyval_eqb_eq (a b : pyval) : pyval_eqb a b = true <-> a = b.
Proof.
  destruct a, b; simpl; try (split; discriminate).
  - rewrite Z.eqb_eq; split; [congruence | intros E; inversion E; auto].
  - rewrite String.eqb_eq; split; [congruence | intros E; inversion E; auto].
  - rewrite list_Z_eqb_eq; split; [congruence | intros E; inversion E; auto].
Qed.

Lemma pyval_eqb_refl (a : pyval) : pyval_eqb a a = true.
Proof. apply pyval_eqb_eq; reflexivity. Qed.

Lemma equals_refl (a : LeanMinHash) : equals a a = true.
Proof.
  unfold equals; rewrite pyval_eqb_refl; simpl.
  apply list_Z_eqb_eq; reflexivity.
Qed.

(** ** Elementwise minimum *)

Lemma np_minimum_length (a b : list Z) :
  List.length (np_minimum a b) = Nat.min (List.length a) (List.length b).
Proof.
  revert b; induction a as [|x a IH]; intros [|y b]; simpl; auto.
Qed.

Lemma np_minimum_nth (a b : list Z) (i : nat) :
  (i < List.length a)%nat -> (i < List.length b)%nat ->
  nth i (np_minimum a b) 0 = Z.min (nth i a 0) (nth i b 0).
Proof.
  revert b i; induction a as [|x a IH]; intros [|y b] [|i]; simpl;
    intros; try lia; auto.
  apply IH; lia.
Qed.

Lemma fold_minimum_length (n : nat) (rs : list (list Z)) (r : list Z) :
  List.length r = n -> rows_of_length n rs ->
  List.length (fold_left np_minimum rs r) = n.
Proof.
  revert r; induction rs as [|x rs IH]; simpl; intros r Hr Hrs; auto.
  inversion Hrs; subst.
  apply IH; auto.
  rewrite np_minimum_length; lia.
Qed.

Lemma is_min_cons_le (m x : Z) (l : list Z) :
  is_min m l -> is_min (Z.min m x) (l ++ [x]).
Proof.
  intros [Hin Hle]; split.
  - apply in_or_app.
    destruct (Z.min_spec m x) as [[_ ->] | [_ ->]]; [left; auto | right].
    left; reflexivity.
  - apply Forall_app; split.
    + eapply Forall_impl; [|exact Hle]; simpl; intros; lia.
    + constructor; [lia | constructor].
Qed.

Lemma is_min_unique (a b : Z) (l : list Z) :
  is_min a l -> is_min b l -> a = b.
Proof.
  intros [Ha La] [Hb Lb].
  rewrite Forall_forall in La, Lb.
  apply La in Hb; apply Lb in Ha; lia.
Qed.

Lemma is_min_perm (a : Z) (l l' : list Z) :
  Permutation l l' -> is_min a l -> is_min a l'.
Proof.
  intros P [Ha La]; split.
  - eapply Permutation_in; eauto.
  - eapply Permutation_Forall; eauto.
Qed.

(** Slot [i] of a reduction is the minimum of column [i]. *)
Lemma fold_minimum_is_min (n : nat) (rs : list (list Z)) :
  forall (r : list Z) (seen : list (list Z)) (i : nat),
  List.length r = n -> rows_of_length n rs -> (i < n)%nat ->
  is_min (nth i r 0) (map (fun row => nth i row 0) seen) ->
  is_min (nth i (fold_left np_minimum rs r) 0)
         (map (fun row => nth i row 0) (seen ++ rs)).
Proof.
  induction rs as [|x rs IH]; simpl; intros r seen i Hr Hrs Hi Hm.
  - rewrite app_nil_r; exact Hm.
  - inversion Hrs; subst.
    replace (seen ++ x :: rs) with ((seen ++ [x]) ++ rs)
      by (rewrite <- app_assoc; reflexivity).
    apply IH; auto.
    + rewrite np_minimum_length; lia.
    + rewrite np_minimum_nth by lia.
      rewrite map_app; simpl.
      apply is_min_cons_le; exact Hm.
Qed.

Lemma reduce_is_min (n : nat) (r : list Z) (rs : list (list Z)) (i : nat) :
  List.length r = n -> rows_of_length n rs -> (i < n)%nat ->
  is_min (nth i (fold_left np_minimum rs r) 0)
         (map (fun row => nth i row 0) (r :: rs)).
Proof.
  intros Hr Hrs Hi.
  apply (fold_minimum_is_min n rs r [r] i); auto.
  split; simpl; [left; reflexivity | constructor; [lia | constructor]].
Qed.

(** ** The checks of union *)

Lemma union_check_passes (m0 : LeanMinHash) (lmhs : list LeanMinHash) :
  (forall m, In m lmhs -> seed m0 = seed m /\ len m0 = len m) ->
  existsb (fun m => negb (pyval_eqb (seed m0) (seed m))
                    || negb (Nat.eqb (len m0) (len m))) lmhs = false.
Proof.
  intros H.
  destruct (existsb _ lmhs) eqn:E; [|reflexivity].
  apply existsb_exists in E as [m [Hin Hb]].
  destruct (H m Hin) as [Hs Hl].
  rewrite Hs, Hl, pyval_eqb_refl, Nat.eqb_refl in Hb; discriminate.
Qed.

Lemma union_check_fails (m0 : LeanMinHash) (lmhs : list LeanMinHash) :
  In m0 lmhs -> incompatible lmhs ->
  existsb (fun m => negb (pyval_eqb (seed m0) (seed m))
                    || negb (Nat.eqb (len m0) (len m))) lmhs = true.
Proof.
  intros H0 (a & b & Ha & Hb & Hne).
  destruct (existsb _ lmhs) eqn:E; [reflexivity|exfalso].
  assert (All : forall m, In m lmhs ->
                seed m0 = seed m /\ len m0 = len m).
  { intros m Hm.
    destruct (pyval_eqb (seed m0) (seed m)) eqn:Es.
    - destruct (Nat.eqb (len m0) (len m)) eqn:El.
      + apply pyval_eqb_eq in Es; apply Nat.eqb_eq in El; auto.
      + assert (X : existsb (fun m => negb (pyval_eqb (seed m0) (seed m))
                       || negb (Nat.eqb (len m0) (len m))) lmhs = true).
        { apply existsb_exists; exists m; rewrite Es, El; auto. }
        congruence.
    - assert (X : existsb (fun m => negb (pyval_eqb (seed m0) (seed m))
                     || negb (Nat.eqb (len m0) (len m))) lmhs = true).
      { apply existsb_exists; exists m; rewrite Es; auto. }
      congruence. }
  destruct (All a Ha) as [Sa La], (All b Hb) as [Sb Lb].
  destruct Hne as [Hne | Hne]; apply Hne; congruence.
Qed.

Lemma compatible_rows (m0 : LeanMinHash) (ms : list LeanMinHash) :
  compatible (m0 :: ms) ->
  rows_of_length (len m0) (map hashvalues ms).
Proof.
  intros C; unfold rows_of_length.
  apply Forall_forall; intros r Hr.
  apply in_map_iff in Hr as [m [<- Hm]].
  destruct (C m0 m) as [_ L]; simpl; auto.
Qed.

Lemma rows_check_passes (r : list Z) (rs : list (list Z)) :
  rows_of_length (List.length r) rs ->
  forallb (fun x => Nat.eqb (List.length x) (List.length r)) rs = true.
Proof.
  intros H; apply forallb_forall; intros x Hx.
  unfold rows_of_length in H; rewrite Forall_forall in H.
  apply Nat.eqb_eq; auto.
Qed.

(** What union returns on at least two compatible sketches. *)
Lemma union_ok (m0 m1 : LeanMinHash) (ms : list LeanMinHash) :
  compatible (m0 :: m1 :: ms) ->
  union parse (m0 :: m1 :: ms)
  = Ok (mkLeanMinHash (seed m0)
          (fold_left np_minimum (map hashvalues (m1 :: ms)) (hashvalues m0))
          None None).
Proof.
  intros C; unfold union.
  change (List.length (m0 :: m1 :: ms) <? 2)%nat with false.
  cbv iota.
  rewrite union_check_passes by (intros m Hm; apply C; simpl; auto).
  unfold np_minimum_reduce.
  cbn [map].
  rewrite (rows_check_passes (hashvalues m0))
    by (apply (compatible_rows m0 (m1 :: ms)); exact C).
  unfold bind, _initialize_slots, bind.
  rewrite parse_ints; reflexivity.
Qed.

Lemma reduce_perm (n : nat) (r r' : list Z) (rs rs' : list (list Z)) :
  rows_of_length n (r :: rs) -> Permutation (r :: rs) (r' :: rs') ->
  fold_left np_minimum rs r = fold_left np_minimum rs' r'.
Proof.
  intros R P.
  assert (R' : rows_of_length n (r' :: rs'))
    by (eapply Permutation_Forall; eauto).
  inversion R as [|? ? Hr Hrs]; inversion R' as [|? ? Hr' Hrs']; subst.
  assert (L : List.length (fold_left np_minimum rs r) = List.length r)
    by (apply fold_minimum_length; auto).
  assert (L' : List.length (fold_left np_minimum rs' r') = List.length r)
    by (apply fold_minimum_length; auto).
  apply (nth_ext _ _ 0 0); [congruence|].
  intros i Hi; rewrite L in Hi.
  apply (is_min_unique _ _ (map (fun row => nth i row 0) (r' :: rs'))).
  - apply (is_min_perm _ (map (fun row => nth i row 0) (r :: rs))).
    + apply Permutation_map; exact P.
    + apply (reduce_is_min (List.length r)); auto.
  - apply (reduce_is_min (List.length r)); auto.
Qed.

Lemma compatible_perm (l l' : list LeanMinHash) :
  Permutation l l' -> compatible l -> compatible l'.
Proof.
  intros P C a b Ha Hb.
  apply C; eapply Permutation_in; try apply Permutation_sym; eauto.
Qed.

(** ** Bytes and the struct module *)

Lemma Z_of_byte_of_Z (z : Z) : Z_of_byte (byte_of_Z z) = z mod 256.
Proof.
  unfold Z_of_byte, byte_of_Z.
  assert (B : 0 <= z mod 256 < 256) by (apply Z.mod_pos_bound; lia).
  destruct (Byte.of_N (Z.to_N (z mod 256))) as [b|] eqn:E.
  - apply Byte.to_of_N in E; rewrite E; apply Z2N.id; lia.
  - apply Byte.of_N_None_iff in E; lia.
Qed.

Lemma le_bytes_length (k : nat) (v : Z) : List.length (le_bytes k v) = k.
Proof. revert v; induction k; simpl; intros; auto. Qed.

Lemma le_value_le_bytes (k : nat) (v : Z) :
  0 <= v < 2 ^ (8 * Z.of_nat k) -> le_value (le_bytes k v) = v.
Proof.
  revert v; induction k as [|k IH]; intros v Hv.
  - simpl in *; lia.
  - cbn [le_bytes le_value].
    rewrite Z_of_byte_of_Z, IH.
    + pose proof (Z.div_mod v 256); lia.
    + replace (8 * Z.of_nat (S k)) with (8 + 8 * Z.of_nat k) in Hv by lia.
      rewrite Z.pow_add_r in Hv by lia.
      change (2 ^ 8) with 256 in Hv.
      split; [apply Z.div_pos; lia | apply Z.div_lt_upper_bound; lia].
Qed.

Lemma int_to_bytes_length (e : endian) (k : nat) (v : Z) :
  List.length (int_to_bytes e k v) = k.
Proof.
  destruct e; simpl; rewrite ?length_rev; apply le_bytes_length.
Qed.

Lemma int_from_to_bytes (e : endian) (k : nat) (v : Z) :
  0 <= v < 2 ^ (8 * Z.of_nat k) ->
  int_from_bytes e (int_to_bytes e k v) = v.
Proof.
  intros H; destruct e; simpl; rewrite ?rev_involutive;
    apply le_value_le_bytes; exact H.
Qed.

Lemma firstn_exact {A : Type} (k : nat) (l r : list A) :
  List.length l = k -> firstn k (l ++ r) = l.
Proof.
  intros <-.
  rewrite firstn_app, Nat.sub_diag, firstn_all; simpl; apply app_nil_r.
Qed.

Lemma skipn_exact {A : Type} (k : nat) (l r : list A) :
  List.length l = k -> skipn k (l ++ r) = r.
Proof.
  intros <-.
  rewrite skipn_app, skipn_all, Nat.sub_diag; reflexivity.
Qed.

Lemma code_size_pos (bo : byteorder) (c : code) :
  0 < code_size long64 bo c.
Proof. destruct bo, c, long64; simpl; lia. Qed.

Lemma align_ge (bo : byteorder) (off : Z) (c : code) :
  off <= align long64 bo off c.
Proof.
  destruct bo; simpl; try lia.
  assert (P : 0 < native_size long64 c) by (destruct c, long64; simpl; lia).
  pose proof (Z.div_mod (off + native_size long64 c - 1)
                (native_size long64 c)) as D.
  pose proof (Z.mod_pos_bound (off + native_size long64 c - 1)
                (native_size long64 c) P) as M.
  nia.
Qed.

(** The bytes of one value under a byte order and a code. *)
Lemma pack_value_unsigned (bo : byteorder) (c : code) (v : Z) :
  code_signed c = false ->
  0 <= v < 2 ^ (8 * code_size long64 bo c) ->
  pack_value sys_byteorder long64 bo c (PyInt v)
  = Ok (int_to_bytes (order_endian sys_byteorder bo)
          (Z.to_nat (code_size long64 bo c)) v).
Proof.
  intros U R; unfold pack_value; rewrite U.
  destruct (Z.leb_spec 0 v); [|lia].
  destruct (Z.ltb_spec v (2 ^ (8 * code_size long64 bo c))); [|lia].
  reflexivity.
Qed.

(** Packing raises nothing but [struct.error]. *)
Lemma pack_value_raises (bo : byteorder) (c : code) (v : pyval) (e : exn) :
  pack_value sys_byteorder long64 bo c v = Raise e ->
  e = Exn StructError None.
Proof.
  unfold pack_value, struct_error; destruct v; try congruence.
  destruct (_ && _); congruence.
Qed.

Lemma pack_reps_raises (bo : byteorder) (c : code) (n : nat) :
  forall (vals : list pyval) (e : exn),
  pack_reps sys_byteorder long64 bo c n vals = Raise e ->
  e = Exn StructError None.
Proof.
  induction n as [|n IH]; simpl; intros vals e H; [discriminate|].
  destruct vals as [|v vals]; [unfold struct_error in H; congruence|].
  destruct (pack_value sys_byteorder long64 bo c v) eqn:E; simpl in H.
  - destruct (pack_reps sys_byteorder long64 bo c n vals) eqn:E';
      simpl in H; [discriminate|].
    inversion H; subst; apply (IH vals); exact E'.
  - apply (pack_value_raises bo c v); congruence.
Qed.

Lemma pack_from_raises (bo : byteorder) (f : fmt) :
  forall (off : Z) (vals : list pyval) (e : exn),
  pack_from sys_byteorder long64 bo off f vals = Raise e ->
  e = Exn StructError None.
Proof.
  induction f as [|[n c] f IH]; simpl; intros off vals e H.
  - destruct vals; unfold struct_error in H; congruence.
  - destruct (pack_reps sys_byteorder long64 bo c n vals) as [p|] eqn:E;
      simpl in H.
    + destruct (pack_from sys_byteorder long64 bo _ f (snd p)) eqn:E';
        simpl in H; [discriminate|].
      inversion H; subst; apply (IH _ _ _ E').
    + apply (pack_reps_raises bo c n vals); congruence.
Qed.

(** The number of bytes packed. *)
Lemma pack_reps_length (bo : byteorder) (c : code) (n : nat) :
  forall (vals : list pyval) (p : list byte * list pyval),
  pack_reps sys_byteorder long64 bo c n vals = Ok p ->
  blen (fst p) = Z.of_nat n * code_size long64 bo c.
Proof.
  induction n as [|n IH]; intros vals p H; cbn [pack_reps] in H.
  - inversion H; subst; reflexivity.
  - destruct vals as [|v vals]; [discriminate|].
    destruct (pack_value sys_byteorder long64 bo c v) as [bs|] eqn:E;
      simpl in H; [|discriminate].
    destruct (pack_reps sys_byteorder long64 bo c n vals) as [r|] eqn:E';
      simpl in H; [|discriminate].
    inversion H; subst; clear H; cbn [fst].
    rewrite Nat2Z.inj_succ.
    apply IH in E'.
    unfold blen in *; rewrite length_app.
    assert (L : Z.of_nat (List.length bs) = code_size long64 bo c).
    { unfold pack_value in E; destruct v; try discriminate.
      destruct (_ && _); [|discriminate].
      inversion E; subst.
      rewrite int_to_bytes_length.
      pose proof (code_size_pos bo c); lia. }
    lia.
Qed.

Lemma pack_from_length (bo : byteorder) (f : fmt) :
  forall (off : Z) (vals : list pyval) (bs : list byte),
  pack_from sys_byteorder long64 bo off f vals = Ok bs ->
  blen bs = calcsize_from long64 bo off f - off.
Proof.
  induction f as [|[n c] f IH]; simpl; intros off vals bs H.
  - destruct vals; inversion H; subst; unfold blen; simpl; lia.
  - destruct (pack_reps sys_byteorder long64 bo c n vals) as [p|] eqn:E;
      simpl in H; [|discriminate].
    destruct (pack_from sys_byteorder long64 bo _ f (snd p)) as [rest|] eqn:E';
      simpl in H; [|discriminate].
    inversion H; subst; clear H.
    apply IH in E'; apply pack_reps_length in E.
    pose proof (align_ge bo off c) as G.
    unfold blen in *; rewrite !length_app.
    unfold zeros; rewrite repeat_length.
    lia.
Qed.

Lemma native_char_size (d : np_dtype) :
  code_size long64 Native (dtype_char long64 d) = itemsize d.
Proof. destruct d, long64; reflexivity. Qed.

Lemma bytesize_value (sd : pyval) (hv : list Z) (d : np_dtype)
    (nb : option Z) (bo : byteorder) :
  bytesize long64 (mkLeanMinHash sd hv (Some d) nb) bo
  = Ok (1 + 4 + 1 + Z.of_nat (List.length hv)
                    * code_size long64 bo (dtype_char long64 d)).
Proof.
  unfold bytesize, struct_calcsize, get_dtype, bind, len; cbn.
  destruct bo, d, long64; cbn; reflexivity.
Qed.

(** The size of what serialize packs, in the byte orders that do not
    align: two bytes for the width, one for the seed, one for the
    precision, and the slots. *)
Lemma calcsize_serialize_fmt (bo : byteorder) (n : nat) (d : np_dtype) :
  bo <> Native ->
  struct_calcsize long64 bo (serialize_fmt long64 n d)
  = 2 + 1 + 1 + Z.of_nat n * code_size long64 bo (dtype_char long64 d).
Proof.
  intros H; unfold struct_calcsize, serialize_fmt.
  destruct bo; try congruence; cbn; lia.
Qed.

(** ** Packing and unpacking in the byte orders that do not align *)

Lemma align_std (bo : byteorder) (off : Z) (c : code) :
  bo <> Native -> align long64 bo off c = off.
Proof. destruct bo; simpl; congruence. Qed.

Lemma code_size_std (bo : byteorder) (c : code) :
  bo <> Native -> code_size long64 bo c = std_size c.
Proof. destruct bo; simpl; congruence. Qed.

Lemma std_size_pos (c : code) : 0 < std_size c.
Proof. destruct c; simpl; lia. Qed.

Lemma enc_length (e : endian) (k v : Z) :
  0 <= k -> Z.of_nat (List.length (enc e k v)) = k.
Proof. intros H; unfold enc; rewrite int_to_bytes_length; lia. Qed.

Lemma enc_flat_length (e : endian) (k : Z) (xs : list Z) :
  0 <= k ->
  List.length (flat_map (enc e k) xs) = (List.length xs * Z.to_nat k)%nat.
Proof.
  intros H; apply flat_map_constant_length.
  intros x _; unfold enc; apply int_to_bytes_length.
Qed.

Lemma pack_reps_ints (bo : byteorder) (c : code) (xs : list Z)
    (tl : list pyval) :
  bo <> Native -> code_signed c = false ->
  Forall (fun v => 0 <= v < 2 ^ (8 * std_size c)) xs ->
  pack_reps sys_byteorder long64 bo c (List.length xs) (map PyInt xs ++ tl)
  = Ok (flat_map (enc (order_endian sys_byteorder bo) (std_size c)) xs, tl).
Proof.
  intros Hbo U F; induction F as [|x xs Hx F IH]; [reflexivity|].
  cbn [List.length map app pack_reps flat_map].
  rewrite pack_value_unsigned, IH by (rewrite ?code_size_std; auto).
  rewrite code_size_std by exact Hbo; reflexivity.
Qed.

Lemma unpack_reps_ints (bo : byteorder) (c : code) (xs : list Z)
    (rest : list byte) :
  bo <> Native -> code_signed c = false ->
  Forall (fun v => 0 <= v < 2 ^ (8 * std_size c)) xs ->
  unpack_reps sys_byteorder long64 bo c (List.length xs)
    (flat_map (enc (order_endian sys_byteorder bo) (std_size c)) xs ++ rest)
  = xs.
Proof.
  intros Hbo U F; induction F as [|x xs Hx F IH]; [reflexivity|].
  cbn [List.length unpack_reps flat_map].
  rewrite code_size_std by exact Hbo.
  rewrite <- app_assoc.
  assert (L : List.length
                (enc (order_endian sys_byteorder bo) (std_size c) x)
              = Z.to_nat (std_size c))
    by (unfold enc; apply int_to_bytes_length).
  rewrite firstn_exact, skipn_exact by exact L.
  rewrite IH; f_equal.
  unfold unpack_value; rewrite U; cbn [andb].
  unfold enc; apply int_from_to_bytes.
  pose proof (std_size_pos c).
  rewrite Z2Nat.id by lia; exact Hx.
Qed.

Lemma pack_from_item (bo : byteorder) (off : Z) (c : code) (xs : list Z)
    (r : fmt) (tl : list pyval) :
  bo <> Native -> code_signed c = false ->
  Forall (fun v => 0 <= v < 2 ^ (8 * std_size c)) xs ->
  pack_from sys_byteorder long64 bo off ((List.length xs, c) :: r)
    (map PyInt xs ++ tl)
  = rest <- pack_from sys_byteorder long64 bo
              (off + Z.of_nat (List.length xs) * std_size c) r tl ;;
    Ok (flat_map (enc (order_endian sys_byteorder bo) (std_size c)) xs
          ++ rest).
Proof.
  intros Hbo U F; cbn [pack_from].
  rewrite align_std, code_size_std, pack_reps_ints by auto.
  cbn [bind fst snd].
  rewrite Z.sub_diag.
  destruct (pack_from _ _ _ _ _ _); reflexivity.
Qed.

Lemma unpack_at_item (bo : byteorder) (off : Z) (c : code) (xs : list Z)
    (r : fmt) (rest : list byte) :
  bo <> Native -> code_signed c = false ->
  Forall (fun v => 0 <= v < 2 ^ (8 * std_size c)) xs ->
  unpack_at sys_byteorder long64 bo off ((List.length xs, c) :: r)
    (flat_map (enc (order_endian sys_byteorder bo) (std_size c)) xs ++ rest)
  = xs ++ unpack_at sys_byteorder long64 bo
            (off + Z.of_nat (List.length xs) * std_size c) r rest.
Proof.
  intros Hbo U F; cbn [unpack_at].
  rewrite align_std, code_size_std by auto.
  rewrite Z.sub_diag; cbn [Z.to_nat skipn].
  rewrite unpack_reps_ints by auto.
  pose proof (std_size_pos c).
  rewrite skipn_exact; [reflexivity|].
  rewrite enc_flat_length by lia.
  rewrite Z2Nat.inj_mul, Nat2Z.id by lia; reflexivity.
Qed.

(** ** The outcomes of serialize *)

(** serialize, once the dtype is known: the guard on the whole length of
    the buffer, then the packing at the offset. *)
Lemma serialize_unfold (s : LeanMinHash) (d : np_dtype) (data : list byte)
    (bo : byteorder) (offset : Z) :
  dtype s = Some d ->
  serialize sys_byteorder long64 s (ByteArray data) bo offset
  = if blen data <? 1 + 4 + 1 + Z.of_nat (len s) * itemsize d
    then Raise (Exn ValueError (Some
           "The buffer does not have enough space                    for holding this MinHash."%string))
    else struct_pack_into sys_byteorder long64 bo
           (serialize_fmt long64 (len s) d) (ByteArray data) offset
           (PyInt (Z.of_nat (len s)) :: seed s :: PyInt (itemsize d)
              :: map PyInt (hashvalues s)).
Proof.
  destruct s as [sd hv dt nb]; cbn [dtype]; intros ->.
  unfold serialize.
  rewrite bytesize_value, native_char_size.
  cbn [bind len hashvalues].
  destruct (blen data <? _); reflexivity.
Qed.

(** The guard does not look at the offset: a buffer shorter than bytesize
    is refused at every offset. *)
Lemma serialize_guard_any_offset (s : LeanMinHash) (d : np_dtype)
    (data : list byte) (bo : byteorder) (offset : Z) :
  dtype s = Some d ->
  blen data < 1 + 4 + 1 + Z.of_nat (len s) * itemsize d ->
  serialize sys_byteorder long64 s (ByteArray data) bo offset
  = Raise (Exn ValueError (Some
      "The buffer does not have enough space                    for holding this MinHash."%string)).
Proof.
  intros Hd Hlt; rewrite (serialize_unfold s d) by exact Hd.
  destruct (Z.ltb_spec (blen data)
              (1 + 4 + 1 + Z.of_nat (len s) * itemsize d)); [reflexivity|lia].
Qed.

(** Past the guard, every failure of serialize is a [struct.error]. *)
Lemma serialize_past_guard_raises (s : LeanMinHash) (d : np_dtype)
    (data : list byte) (bo : byteorder) (offset : Z) (e : exn) :
  dtype s = Some d ->
  1 + 4 + 1 + Z.of_nat (len s) * itemsize d <= blen data ->
  serialize sys_byteorder long64 s (ByteArray data) bo offset = Raise e ->
  e = Exn StructError None.
Proof.
  intros Hd Hge; rewrite (serialize_unfold s d) by exact Hd.
  destruct (Z.ltb_spec (blen data)
              (1 + 4 + 1 + Z.of_nat (len s) * itemsize d)); [lia|].
  unfold struct_pack_into, struct_error.
  destruct (negb _); [congruence|].
  unfold resolve_offset, struct_error.
  repeat match goal with
         | |- context [if ?b then _ else _] => destruct b
         end; cbn [bind]; try congruence;
    (destruct (pack_from _ _ _ _ _ _) eqn:P; cbn [bind]; [discriminate|];
     intros H'; inversion H'; subst; eapply pack_from_raises; exact P).
Qed.

(** A serialize that succeeds overwrites as many bytes as the format has,
    inside the buffer, and nothing else. *)
Lemma serialize_splices (s : LeanMinHash) (d : np_dtype) (data : list byte)
    (bo : byteorder) (offset : Z) (b : buffer) :
  dtype s = Some d ->
  serialize sys_byteorder long64 s (ByteArray data) bo offset = Ok b ->
  exists (pos : Z) (bs : list byte),
    b = ByteArray (splice data pos bs)
    /\ blen bs = struct_calcsize long64 bo (serialize_fmt long64 (len s) d)
    /\ pos = (if offset <? 0 then offset + blen data else offset)
    /\ 0 <= pos /\ pos + blen bs <= blen data.
Proof.
  intros Hd; rewrite (serialize_unfold s d) by exact Hd.
  destruct (blen data <? _); [discriminate|].
  unfold struct_pack_into.
  destruct (negb _); [discriminate|].
  destruct (resolve_offset _ _ _) as [pos|] eqn:R; cbn [bind]; [|discriminate].
  destruct (pack_from _ _ _ _ _ _) as [bs|] eqn:P; cbn [bind]; [|discriminate].
  intros H; inversion H; subst; clear H.
  exists pos, bs.
  apply pack_from_length in P; rewrite Z.sub_0_r in P.
  fold (struct_calcsize long64 bo (serialize_fmt long64 (len s) d)) in P.
  split; [reflexivity|]; split; [exact P|].
  rewrite P.
  unfold resolve_offset, struct_error in R.
  destruct (Z.ltb_spec offset 0).
  - destruct (Z.ltb_spec 0 (offset + struct_calcsize long64 bo
                                       (serialize_fmt long64 (len s) d)));
      [discriminate|].
    destruct (Z.ltb_spec (offset + blen data) 0); [discriminate|].
    inversion R; subst; lia.
  - destruct (Z.ltb_spec (blen data - offset)
                (struct_calcsize long64 bo (serialize_fmt long64 (len s) d)));
      [discriminate|].
    inversion R; subst; lia.
Qed.

(** What lies outside the bytes written is as it was. *)
Lemma splice_length (data bs : list byte) (pos : Z) :
  0 <= pos -> pos + blen bs <= blen data ->
  List.length (splice data pos bs) = List.length data.
Proof.
  unfold splice, blen; intros H0 H1.
  rewrite !length_app, length_firstn, length_skipn; lia.
Qed.

Lemma splice_outside (data bs : list byte) (pos : Z) (i : nat) (x : byte) :
  0 <= pos -> pos + blen bs <= blen data ->
  Z.of_nat i < pos \/ pos + blen bs <= Z.of_nat i ->
  nth i (splice data pos bs) x = nth i data x.
Proof.
  unfold splice, blen; intros H0 H1 H.
  assert (Lf : List.length (firstn (Z.to_nat pos) data) = Z.to_nat pos)
    by (rewrite length_firstn; lia).
  destruct H as [H|H].
  - rewrite app_nth1 by lia.
    rewrite <- (firstn_skipn (Z.to_nat pos) data) at 2.
    rewrite app_nth1 by lia; reflexivity.
  - rewrite app_nth2 by lia.
    rewrite app_nth2 by lia.
    rewrite Lf.
    rewrite <- (firstn_skipn (Z.to_nat pos + List.length bs) data) at 2.
    rewrite app_nth2 by (rewrite length_firstn; lia).
    rewrite length_firstn.
    f_equal; lia.
Qed.


(** ** The wire layout *)

Lemma dtype_char_unsigned (d : np_dtype) :
  code_signed (dtype_char long64 d) = false.
Proof. destruct d, long64; reflexivity. Qed.

Lemma std_char_le_itemsize (d : np_dtype) :
  std_size (dtype_char long64 d) <= itemsize d.
Proof. destruct d, long64; simpl; lia. Qed.

Lemma np_dtype_of_itemsize (d : np_dtype) : np_dtype_of (itemsize d) = Ok d.
Proof. destruct d; reflexivity. Qed.

Lemma wire_length (e : endian) (k w z p : Z) (hv : list Z) :
  0 <= k ->
  blen (wire e k w z p hv) = 4 + Z.of_nat (List.length hv) * k.
Proof.
  intros H; unfold wire, blen.
  rewrite !length_app, enc_flat_length by exact H.
  unfold enc; rewrite !int_to_bytes_length.
  rewrite Nat2Z.inj_add, Nat2Z.inj_add, Nat2Z.inj_add, Nat2Z.inj_mul.
  rewrite (Z2Nat.id k) by exact H.
  change (Z.of_nat (Z.to_nat 2)) with 2.
  change (Z.of_nat (Z.to_nat 1)) with 1.
  lia.
Qed.

Lemma wire_items (e : endian) (k w z p : Z) (hv : list Z)
    (rest : list byte) :
  wire e k w z p hv ++ rest
  = flat_map (enc e 2) [w] ++ flat_map (enc e 1) [z]
      ++ flat_map (enc e 1) [p] ++ flat_map (enc e k) hv ++ rest.
Proof.
  unfold wire; cbn [flat_map]; rewrite !app_nil_r, <- !app_assoc.
  reflexivity.
Qed.

(** The side conditions of [pack_from_item] and [unpack_at_item]. *)
Ltac item_side :=
  first [ assumption
        | reflexivity
        | apply dtype_char_unsigned
        | constructor; [eassumption | constructor] ].

(** Packing the four fields of a sketch yields the wire layout. *)
Lemma pack_serialize_fmt (bo : byteorder) (d : np_dtype) (w z p : Z)
    (hv : list Z) :
  bo <> Native ->
  0 <= w < 2 ^ 16 -> 0 <= z < 2 ^ 8 -> 0 <= p < 2 ^ 8 ->
  Forall (fun v => 0 <= v < 2 ^ (8 * std_size (dtype_char long64 d))) hv ->
  pack_from sys_byteorder long64 bo 0
    (serialize_fmt long64 (List.length hv) d)
    (PyInt w :: PyInt z :: PyInt p :: map PyInt hv)
  = Ok (wire (order_endian sys_byteorder bo)
          (std_size (dtype_char long64 d)) w z p hv).
Proof.
  intros Hbo Hw Hz Hp Hhv.
  change (serialize_fmt long64 (List.length hv) d)
    with [(List.length [w], cH); (List.length [z], cB);
          (List.length [p], cB); (List.length hv, dtype_char long64 d)].
  change (PyInt w :: PyInt z :: PyInt p :: map PyInt hv)
    with (map PyInt [w] ++ map PyInt [z] ++ map PyInt [p] ++ map PyInt hv).
  rewrite <- (app_nil_r (map PyInt hv)).
  rewrite (pack_from_item bo 0 cH [w])
    by item_side.
  rewrite (pack_from_item bo _ cB [z])
    by item_side.
  rewrite (pack_from_item bo _ cB [p])
    by item_side.
  rewrite (pack_from_item bo _ (dtype_char long64 d) hv)
    by item_side.
  cbn [pack_from bind].
  rewrite <- (app_nil_r (wire _ _ _ _ _ _)), wire_items.
  reflexivity.
Qed.

(** Unpacking the header and the slots of the wire layout. *)
Lemma unpack_wire (bo : byteorder) (d : np_dtype) (w z p : Z)
    (hv : list Z) (rest : list byte) :
  bo <> Native ->
  0 <= w < 2 ^ 16 -> 0 <= z < 2 ^ 8 -> 0 <= p < 2 ^ 8 ->
  Forall (fun v => 0 <= v < 2 ^ (8 * std_size (dtype_char long64 d))) hv ->
  unpack_at sys_byteorder long64 bo 0
    [(1%nat, cH); (1%nat, cB); (1%nat, cB)]
    (wire (order_endian sys_byteorder bo)
       (std_size (dtype_char long64 d)) w z p hv ++ rest)
  = [w; z; p]
  /\ unpack_at sys_byteorder long64 bo 0
       [(List.length hv, dtype_char long64 d)]
       (skipn 4
          (wire (order_endian sys_byteorder bo)
             (std_size (dtype_char long64 d)) w z p hv ++ rest))
     = hv.
Proof.
  intros Hbo Hw Hz Hp Hhv; rewrite wire_items; split.
  - change [(1%nat, cH); (1%nat, cB); (1%nat, cB)]
      with [(List.length [w], cH); (List.length [z], cB);
            (List.length [p], cB)].
    rewrite (unpack_at_item bo 0 cH [w])
      by item_side.
    rewrite (unpack_at_item bo _ cB [z])
      by item_side.
    rewrite (unpack_at_item bo _ cB [p])
      by item_side.
    reflexivity.
  - set (X := flat_map _ hv ++ rest).
    rewrite app_assoc, app_assoc.
    rewrite skipn_exact.
    + subst X.
      rewrite (unpack_at_item bo 0 (dtype_char long64 d) hv)
        by item_side.
      cbn [unpack_at]; apply app_nil_r.
    + cbn [flat_map]; rewrite !length_app; unfold enc.
      rewrite !int_to_bytes_length; reflexivity.
Qed.

Lemma itemsize_byte (d : np_dtype) : 0 <= itemsize d < 2 ^ 8.
Proof. destruct d; simpl; lia. Qed.

(** serialize writes the wire layout of the spec at a non-negative offset,
    in every byte order that does not align, when the fields fit theirs
    and the buffer has room. *)
Lemma serialize_wire (s : LeanMinHash) (d : np_dtype) (z : Z)
    (data : list byte) (bo : byteorder) (offset : Z) :
  dtype s = Some d -> seed s = PyInt z -> 0 <= z < 2 ^ 8 ->
  Z.of_nat (len s) < 2 ^ 16 ->
  Forall (fun v => 0 <= v < 2 ^ (8 * std_size (dtype_char long64 d)))
    (hashvalues s) ->
  bo <> Native ->
  1 + 4 + 1 + Z.of_nat (len s) * itemsize d <= blen data ->
  0 <= offset ->
  offset + 4 + Z.of_nat (len s) * std_size (dtype_char long64 d)
    <= blen data ->
  serialize sys_byteorder long64 s (ByteArray data) bo offset
  = Ok (ByteArray
          (splice data offset
             (wire (order_endian sys_byteorder bo)
                (std_size (dtype_char long64 d))
                (Z.of_nat (len s)) z (itemsize d) (hashvalues s)))).
Proof.
  intros Hd Hs Hz Hw Hhv Hbo Hg Ho Hroom.
  rewrite (serialize_unfold s d) by exact Hd.
  destruct (Z.ltb_spec (blen data)
              (1 + 4 + 1 + Z.of_nat (len s) * itemsize d)); [lia|].
  unfold struct_pack_into.
  replace (Nat.eqb _ _) with true
    by (symmetry; apply Nat.eqb_eq; cbn; rewrite length_map;
        unfold len; lia).
  cbn [negb].
  rewrite calcsize_serialize_fmt, code_size_std by exact Hbo.
  unfold resolve_offset.
  destruct (Z.ltb_spec offset 0); [lia|].
  destruct (Z.ltb_spec (blen data - offset)
              (2 + 1 + 1
               + Z.of_nat (len s) * std_size (dtype_char long64 d)));
    [lia|].
  cbn [bind].
  rewrite Hs; unfold len.
  rewrite (pack_serialize_fmt bo d (Z.of_nat (List.length (hashvalues s)))
             z (itemsize d) (hashvalues s) Hbo);
    [reflexivity | unfold len in Hw; lia | exact Hz
     | apply itemsize_byte | exact Hhv].
Qed.

(** X10: with bytesize bytes of room from a non-negative offset on, the
    serialize of a sketch whose fields fit their codes succeeds, keeps the
    length of the buffer and changes no byte outside the bytes of the
    format. *)
Lemma serialize_enough_room (s : LeanMinHash) (d : np_dtype) (z : Z)
    (data : list byte) (bo : byteorder) (offset : Z) :
  dtype s = Some d -> seed s = PyInt z -> 0 <= z < 2 ^ 8 ->
  Z.of_nat (len s) < 2 ^ 16 ->
  Forall (fun v => 0 <= v < 2 ^ (8 * std_size (dtype_char long64 d)))
    (hashvalues s) ->
  bo <> Native -> 0 <= offset ->
  1 + 4 + 1 + Z.of_nat (len s) * itemsize d <= blen data - offset ->
  exists data',
    serialize sys_byteorder long64 s (ByteArray data) bo offset
    = Ok (ByteArray data')
    /\ List.length data' = List.length data
    /\ forall (i : nat) (x : byte),
         Z.of_nat i < offset
         \/ offset + 4 + Z.of_nat (len s) * std_size (dtype_char long64 d)
            <= Z.of_nat i ->
         nth i data' x = nth i data x.
Proof.
  intros Hd Hs Hz Hw Hhv Hbo Ho Hroom.
  pose proof (std_char_le_itemsize d) as Hk.
  pose proof (std_size_pos (dtype_char long64 d)) as Kpos.
  assert (R : offset + 4
              + Z.of_nat (len s) * std_size (dtype_char long64 d)
              <= blen data) by nia.
  eexists; split; [apply (serialize_wire s d z); auto; lia|].
  set (w := wire _ _ _ _ _ _).
  assert (Lw : blen w
               = 4 + Z.of_nat (len s) * std_size (dtype_char long64 d))
    by (unfold w, len; apply wire_length; lia).
  split.
  - apply splice_length; lia.
  - intros i x Hi; apply splice_outside; lia.
Qed.

(** deserialize reads the wire layout in the byte order of the host. *)
Lemma deserialize_wire (d : np_dtype) (z : Z) (hv : list Z)
    (rest : list byte) (bo : byteorder) :
  0 <= z < 2 ^ 8 -> Z.of_nat (List.length hv) < 2 ^ 16 ->
  Forall (fun v => 0 <= v < 2 ^ (8 * std_size (dtype_char long64 d))) hv ->
  deserialize sys_byteorder long64 parse
    (wire sys_byteorder (std_size (dtype_char long64 d))
       (Z.of_nat (List.length hv)) z (itemsize d) hv ++ rest) bo
  = Ok (mkLeanMinHash (PyInt z) hv (Some d) (Some (itemsize d))).
Proof.
  intros Hz Hw Hhv.
  unfold deserialize.
  set (bo0 := match sys_byteorder with
              | Little => LittleEndian
              | Big => BigEndian
              end).
  assert (Hn : bo0 <> Native)
    by (unfold bo0; destruct sys_byteorder; discriminate).
  assert (He : order_endian sys_byteorder bo0 = sys_byteorder)
    by (unfold bo0; destruct sys_byteorder; reflexivity).
  assert (Hw' : 0 <= Z.of_nat (List.length hv) < 2 ^ 16) by lia.
  destruct (unpack_wire bo0 d (Z.of_nat (List.length hv)) z (itemsize d)
              hv rest Hn Hw' Hz (itemsize_byte d) Hhv) as [U1 U2].
  rewrite He in U1, U2.
  set (buf := wire sys_byteorder _ _ _ _ _ ++ rest) in *.
  pose proof (std_size_pos (dtype_char long64 d)) as Kpos.
  assert (Lb : blen buf
               = 4 + Z.of_nat (List.length hv)
                     * std_size (dtype_char long64 d) + blen rest).
  { unfold buf, blen; rewrite length_app, Nat2Z.inj_add.
    fold (blen (wire sys_byteorder (std_size (dtype_char long64 d))
                  (Z.of_nat (List.length hv)) z (itemsize d) hv)).
    rewrite wire_length by lia; reflexivity. }
  assert (Lr : 0 <= blen rest) by (unfold blen; lia).
  assert (C1 : struct_calcsize long64 bo0
                 [(1%nat, cH); (1%nat, cB); (1%nat, cB)] = 4)
    by (unfold bo0; destruct sys_byteorder; reflexivity).
  unfold struct_unpack_from at 1.
  rewrite C1.
  unfold resolve_offset at 1.
  change (0 <? 0) with false; cbv iota.
  destruct (Z.ltb_spec (blen buf - 0) 4); [nia|].
  cbn [bind]; change (Z.to_nat 0) with 0%nat; cbn [skipn].
  rewrite U1, np_dtype_of_itemsize.
  cbn [bind]; rewrite Nat2Z.id.
  unfold struct_unpack_from.
  assert (C2 : struct_calcsize long64 bo0
                 [(List.length hv, dtype_char long64 d)]
               = Z.of_nat (List.length hv)
                 * std_size (dtype_char long64 d)).
  { unfold struct_calcsize; cbn [calcsize_from].
    rewrite align_std, code_size_std by exact Hn; lia. }
  rewrite C2.
  unfold resolve_offset.
  change (4 <? 0) with false; cbv iota.
  destruct (Z.ltb_spec (blen buf - 4)
              (Z.of_nat (List.length hv)
               * std_size (dtype_char long64 d))); [lia|].
  cbn [bind]; change (Z.to_nat 4) with 4%nat.
  rewrite U2.
  unfold _initialize_slots; rewrite parse_ints; reflexivity.
Qed.

(** X1: in the byte order of the host the round trip holds: a sketch whose
    seed fits one byte, whose width fits two and whose slots fit the size
    of their code comes back as it was. *)
Theorem roundtrip_in_host_order (s : LeanMinHash) (d : np_dtype) (z : Z)
    (bo : byteorder) (n : nat) :
  seed s = PyInt z -> 0 <= z <= 255 ->
  dtype s = Some d -> n_bytes s = Some (itemsize d) ->
  Z.of_nat (len s) <= 65535 ->
  Forall (fun v => 0 <= v < 2 ^ (8 * std_size (dtype_char long64 d)))
    (hashvalues s) ->
  bo <> Native -> order_endian sys_byteorder bo = sys_byteorder ->
  1 + 4 + 1 + Z.of_nat (len s) * itemsize d <= Z.of_nat n ->
  roundtrip sys_byteorder long64 parse s bo n = Ok s.
Proof.
  intros Hs Hz Hd Hn Hw Hhv Hbo He Hroom.
  unfold roundtrip.
  assert (Lb : blen (repeat x00 n) = Z.of_nat n)
    by (unfold blen; rewrite repeat_length; reflexivity).
  pose proof (std_char_le_itemsize d) as Hk.
  pose proof (std_size_pos (dtype_char long64 d)) as Kpos.
  rewrite (serialize_wire s d z) by (auto; try rewrite Lb; nia).
  cbn [bind].
  rewrite He.
  unfold splice; change (Z.to_nat 0) with 0%nat; cbn [firstn app].
  unfold len.
  rewrite deserialize_wire by (auto; unfold len in Hw; lia).
  destruct s as [sd hv dt nb]; cbn in *; subst; reflexivity.
Qed.

(** ** The example sketches are valid *)

Lemma sketch_4x4_valid : valid sketch_4x4.
Proof.
  split; [exists 1; split; [reflexivity|lia]|].
  split; [cbn; lia|].
  exists U4; repeat split; repeat constructor; cbn; lia.
Qed.

(** They are what the constructor makes of a MinHash. *)
Lemma sketch_4x4_init :
  __init__ parse (mkMinHash (PyInt 1) [10; 20; 30; 40] U4 4) = Ok sketch_4x4.
Proof. unfold __init__, _initialize_slots; rewrite parse_ints; reflexivity. Qed.

Lemma sketch_1x1_init :
  __init__ parse (mkMinHash (PyInt 1) [7] U1 1) = Ok sketch_1x1.
Proof. unfold __init__, _initialize_slots; rewrite parse_ints; reflexivity. Qed.

Lemma sketch_1x1_valid : valid sketch_1x1.
Proof.
  split; [exists 1; split; [reflexivity|lia]|].
  split; [cbn; lia|].
  exists U1; repeat split; repeat constructor; cbn; lia.
Qed.

(** ** The merge operator *)

(** C3: on at least two pairwise compatible sketches, union returns a
    sketch with their seed and their width whose slot [i] is the minimum of
    the inputs' slots [i], for every slot index [i]; and the union of the
    slots [5,9,2,7] and [3,10,1,8] under seed 42 has the slots
    [3,9,1,7]. *)
Theorem union_slotwise_minimum :
  (forall lmhs : list LeanMinHash,
     (2 <= List.length lmhs)%nat -> compatible lmhs ->
     exists u, union parse lmhs = Ok u
       /\ (forall m, In m lmhs -> seed u = seed m /\ len u = len m)
       /\ (forall i, (i < len u)%nat ->
             is_min (slot i u) (map (slot i) lmhs)))
  /\ (forall dA nA dB nB,
       exists u,
         union parse [mkLeanMinHash (PyInt 42) [5; 9; 2; 7] dA nA;
                      mkLeanMinHash (PyInt 42) [3; 10; 1; 8] dB nB] = Ok u
         /\ seed u = PyInt 42 /\ len u = 4%nat
         /\ hashvalues u = [3; 9; 1; 7]).
Proof.
  split.
  - intros [|m0 [|m1 ms]] Hlen C; simpl in Hlen; try lia.
    rewrite (union_ok m0 m1 ms C).
    eexists; split; [reflexivity|].
    assert (R : rows_of_length (len m0) (map hashvalues (m1 :: ms)))
      by (apply compatible_rows; exact C).
    assert (L : List.length
                  (fold_left np_minimum (map hashvalues (m1 :: ms))
                     (hashvalues m0)) = len m0)
      by (apply fold_minimum_length; auto).
    split.
    + intros m Hm; unfold len at 1; cbn [seed hashvalues].
      rewrite L; apply C; simpl; auto.
    + intros i Hi; unfold len in Hi; cbn [hashvalues] in Hi.
      unfold slot at 1; cbn [hashvalues].
      replace (map (slot i) (m0 :: m1 :: ms))
        with (map (fun row => nth i row 0)
                (hashvalues m0 :: map hashvalues (m1 :: ms)))
        by (cbn [map]; rewrite map_map; reflexivity).
      apply (reduce_is_min (len m0)); auto; lia.
  - intros dA nA dB nB.
    rewrite union_ok.
    + eexists; split; [reflexivity|]; cbn; auto.
    + intros a b [<-|[<-|[]]] [<-|[<-|[]]]; cbn; auto.
Qed.

(** C9: on pairwise compatible sketches union is commutative and
    associative: any permutation of at least two inputs yields an equal
    sketch, and the union of the union of [A] and [B] with [C] equals the
    union of [A], [B] and [C]. *)
Theorem union_commutative_associative :
  (forall l l' : list LeanMinHash,
     Permutation l l' -> (2 <= List.length l)%nat -> compatible l ->
     exists u u', union parse l = Ok u /\ union parse l' = Ok u'
                  /\ u = u' /\ equals u u' = true)
  /\ (forall A B C : LeanMinHash,
       compatible [A; B; C] ->
       exists ab u u',
         union parse [A; B] = Ok ab /\ union parse [ab; C] = Ok u
         /\ union parse [A; B; C] = Ok u'
         /\ u = u' /\ equals u u' = true).
Proof.
  split.
  - intros l l' P Hlen C.
    assert (C' : compatible l') by (eapply compatible_perm; eauto).
    pose proof (Permutation_length P) as PL.
    destruct l as [|m0 [|m1 ms]]; simpl in Hlen; try lia.
    destruct l' as [|p0 [|p1 ps]]; simpl in PL; try lia.
    rewrite (union_ok m0 m1 ms C), (union_ok p0 p1 ps C').
    assert (E : mkLeanMinHash (seed m0)
                  (fold_left np_minimum (map hashvalues (m1 :: ms))
                     (hashvalues m0)) None None
              = mkLeanMinHash (seed p0)
                  (fold_left np_minimum (map hashvalues (p1 :: ps))
                     (hashvalues p0)) None None).
    { f_equal.
      - apply C; [simpl; auto|].
        eapply Permutation_in; [apply Permutation_sym; exact P|simpl; auto].
      - apply (reduce_perm (len m0)).
        + constructor; [reflexivity|apply compatible_rows; exact C].
        + apply (Permutation_map hashvalues) in P; exact P. }
    do 2 eexists; repeat split; try reflexivity; [exact E|].
    rewrite E; apply equals_refl.
  - intros A B C Cabc.
    assert (Cab : compatible [A; B]).
    { intros a b Ha Hb; apply Cabc; simpl in *; tauto. }
    destruct (Cabc A B) as [_ LAB]; [simpl; auto|simpl; auto|].
    destruct (Cabc A C) as [SAC LAC]; [simpl; auto|simpl; auto|].
    rewrite (union_ok A B [] Cab), (union_ok A B [C] Cabc).
    cbn [map fold_left].
    assert (Lab : List.length (np_minimum (hashvalues A) (hashvalues B))
                  = len A).
    { rewrite np_minimum_length; unfold len in LAB; rewrite <- LAB.
      unfold len; lia. }
    do 3 eexists; split; [reflexivity|].
    rewrite union_ok.
    + cbn [map fold_left seed hashvalues].
      repeat split; try reflexivity.
      apply equals_refl.
    + intros a b [<-|[<-|[]]] [<-|[<-|[]]]; unfold len;
        cbn [seed hashvalues]; rewrite ?Lab; auto.
Qed.

(** C7, as the code has it: union raises a ValueError when it is given
    fewer than two sketches, and a ValueError when its inputs (at least
    two) do not all share seed and width; the two failures are of one
    exception class and differ in their message only. *)
Theorem union_failures_are_ValueErrors (lmhs : list LeanMinHash) :
  (List.length lmhs < 2)%nat \/ incompatible lmhs ->
  union parse lmhs
  = Raise (Exn ValueError (Some
      (if (List.length lmhs <? 2)%nat
       then "Cannot union less than 2 MinHash"
       else "The unioning MinHash must have the                    same seed, number of permutation functions and hashobj")%string))
  /\ ("Cannot union less than 2 MinHash"
       <> "The unioning MinHash must have the                    same seed, number of permutation functions and hashobj")%string.
Proof.
  intros H; split; [|discriminate].
  unfold union.
  destruct (List.length lmhs <? 2)%nat eqn:E; [reflexivity|].
  apply Nat.ltb_ge in E.
  destruct H as [H|H]; [lia|].
  destruct lmhs as [|m0 ms]; [simpl in E; lia|].
  rewrite (union_check_fails m0 (m0 :: ms)); [reflexivity|simpl; auto|exact H].
Qed.

(** ** Immutability *)

(** C10: update raises a TypeError whatever it is given, and the sketch
    after the call has the seed, hashvalues, dtype and n_bytes it had. *)
Theorem update_raises_TypeError (s : LeanMinHash) (b : pyval) :
  fst (update s b)
  = Raise (Exn TypeError (Some "Cannot update a LeanMinHash"%string))
  /\ snd (update s b) = s
  /\ seed (snd (update s b)) = seed s
  /\ hashvalues (snd (update s b)) = hashvalues s
  /\ dtype (snd (update s b)) = dtype s
  /\ n_bytes (snd (update s b)) = n_bytes s.
Proof. repeat split. Qed.

(** ** Copy *)

(** C6, what the code does instead: copy hands the names of the slots, not
    their values, to [_initialize_slots]; its outcome is the same for every
    sketch, and a sketch it returns has the string [seed] for a seed and
    neither dtype nor n_bytes, so the copy of the sketch of seed 1 is not
    equal to it. *)
Theorem copy_passes_slot_names (a : LeanMinHash) :
  (forall b, copy parse b = copy parse a)
  /\ match copy parse a with
     | Ok c => seed c = PyStr "seed" /\ dtype c = None /\ n_bytes c = None
     | Raise _ => True
     end
  /\ match copy parse sketch_4x4 with
     | Ok c => equals c sketch_4x4 = false
     | Raise _ => True
     end.
Proof.
  split; [reflexivity|].
  unfold copy, _initialize_slots, bind.
  destruct (parse (PyStr (snd __slots__))); cbn; auto.
Qed.

(** ** The size of the serialized sketch *)

(** C4, what the code does instead: bytesize counts one byte for the seed,
    four for the number of slots and one for the precision, so it returns
    6 + width * precision in the default byte order, and 6 + width * the
    size of the slot code in any byte order; on the sketch of four 4-byte
    slots that is 22, not 2 + 1 + 1 + 4 * 4. *)
Theorem bytesize_counts_four_length_bytes
    (sd : pyval) (hv : list Z) (d : np_dtype) (nb : option Z) :
  bytesize long64 (mkLeanMinHash sd hv (Some d) nb) Native
  = Ok (1 + 4 + 1 + Z.of_nat (List.length hv) * itemsize d)
  /\ (forall bo,
        bytesize long64 (mkLeanMinHash sd hv (Some d) nb) bo
        = Ok (1 + 4 + 1 + Z.of_nat (List.length hv)
                          * code_size long64 bo (dtype_char long64 d)))
  /\ (forall bo, bytesize long64 sketch_4x4 bo = Ok 22)
  /\ 22 <> 2 + 1 + 1 + 4 * 4.
Proof.
  split; [|split; [|split]]; try lia.
  - rewrite bytesize_value, native_char_size; reflexivity.
  - intros bo; apply bytesize_value.
  - intros bo; destruct bo, long64; reflexivity.
Qed.

(** C5, what the code does instead: serialized little-endian at offset 0
    of a buffer of 22 bytes, the valid sketch of four 4-byte slots
    overwrites 20 bytes and leaves the last two as they were, while
    bytesize returns 22. *)
Theorem bytesize_exceeds_bytes_written :
  valid sketch_4x4
  /\ serialize sys_byteorder long64 sketch_4x4 (ByteArray (repeat xff 22))
       LittleEndian 0
  = Ok (ByteArray
          (bytes_of [4; 0; 1; 4; 10; 0; 0; 0; 20; 0; 0; 0;
                     30; 0; 0; 0; 40; 0; 0; 0] ++ [xff; xff]))
  /\ bytesize long64 sketch_4x4 LittleEndian = Ok 22
  /\ bytesize long64 sketch_4x4 Native = Ok 22.
Proof.
  split; [exact sketch_4x4_valid|].
  destruct sys_byteorder, long64; repeat split; reflexivity.
Qed.

(** ** The guard of serialize *)

(** C8, what the code does instead: the guard of serialize compares the
    whole length of the buffer with bytesize and overlooks the offset.  The
    sketch of one 1-byte slot has bytesize 7; in a buffer of 7 bytes, at
    offset 4, the packing raises [struct.error], not the ValueError of the
    guard, and at offset 2, where 5 bytes are left, serialize succeeds. *)
Theorem serialize_guard_overlooks_offset :
  valid sketch_1x1
  /\ bytesize long64 sketch_1x1 Native = Ok 7
  /\ serialize sys_byteorder long64 sketch_1x1 (ByteArray (repeat xff 7))
       LittleEndian 4
     = Raise (Exn StructError None)
  /\ serialize sys_byteorder long64 sketch_1x1 (ByteArray (repeat xff 7))
       LittleEndian 2
     = Ok (ByteArray (bytes_of [255; 255; 1; 0; 1; 1; 7]))
  /\ serialize sys_byteorder long64 sketch_1x1 (ByteArray (repeat xff 6))
       LittleEndian 0
     = Raise (Exn ValueError (Some
         "The buffer does not have enough space                    for holding this MinHash."%string)).
Proof.
  split; [exact sketch_1x1_valid|].
  destruct sys_byteorder, long64; repeat split; reflexivity.
Qed.

(** ** The round trip *)

(** C2, what the code does instead: deserialize never reads its byteorder
    argument, it decodes in the byte order of the host.  The big-endian
    serialization of the sketch of one 1-byte slot, deserialized as
    big-endian, is that sketch on a big-endian host and a [struct.error]
    on a little-endian host, which reads 256 for the number of slots. *)
Theorem deserialize_ignores_byteorder :
  (forall (buf : list byte) (bo bo' : byteorder),
     deserialize sys_byteorder long64 parse buf bo
     = deserialize sys_byteorder long64 parse buf bo')
  /\ serialize sys_byteorder long64 sketch_1x1 (ByteArray (repeat x00 7))
       BigEndian 0
     = Ok (ByteArray (bytes_of [0; 1; 1; 1; 7; 0; 0]))
  /\ deserialize Big long64 parse_array (bytes_of [0; 1; 1; 1; 7; 0; 0])
       BigEndian
     = Ok sketch_1x1
  /\ deserialize Little long64 parse (bytes_of [0; 1; 1; 1; 7; 0; 0])
       BigEndian
     = Raise (Exn StructError None).
Proof.
  split; [reflexivity|].
  destruct sys_byteorder, long64; repeat split; reflexivity.
Qed.

(** ** What deserialize reads *)

Lemma Z_of_byte_range (b : byte) : 0 <= Z_of_byte b < 256.
Proof.
  unfold Z_of_byte; pose proof (Byte.to_N_bounded b); lia.
Qed.

Lemma byte_of_Z_of_byte (b : byte) : byte_of_Z (Z_of_byte b) = b.
Proof.
  pose proof (Z_of_byte_range b) as R.
  unfold byte_of_Z; rewrite Z.mod_small by exact R.
  unfold Z_of_byte; rewrite N2Z.id, Byte.of_to_N; reflexivity.
Qed.

Lemma byte_of_Z_low (b : byte) (v : Z) :
  byte_of_Z (Z_of_byte b + 256 * v) = b.
Proof.
  pose proof (Z_of_byte_range b) as R.
  rewrite <- (byte_of_Z_of_byte b) at 2.
  unfold byte_of_Z.
  replace ((Z_of_byte b + 256 * v) mod 256) with (Z_of_byte b mod 256);
    [reflexivity|].
  rewrite (Z.mul_comm 256 v), Z_mod_plus_full; reflexivity.
Qed.

Lemma le_bytes_le_value (bs : list byte) :
  le_bytes (List.length bs) (le_value bs) = bs.
Proof.
  induction bs as [|b bs IH]; [reflexivity|].
  cbn [List.length le_value le_bytes].
  rewrite byte_of_Z_low; f_equal.
  pose proof (Z_of_byte_range b) as R.
  replace ((Z_of_byte b + 256 * le_value bs) / 256) with (le_value bs);
    [exact IH|].
  rewrite (Z.mul_comm 256), Z.div_add by lia.
  rewrite Z.div_small by exact R; reflexivity.
Qed.

Lemma le_value_range (bs : list byte) :
  0 <= le_value bs < 2 ^ (8 * Z.of_nat (List.length bs)).
Proof.
  induction bs as [|b bs IH]; [simpl; lia|].
  cbn [List.length le_value].
  pose proof (Z_of_byte_range b) as R.
  replace (8 * Z.of_nat (S (List.length bs)))
    with (8 + 8 * Z.of_nat (List.length bs)) by lia.
  rewrite Z.pow_add_r by lia.
  change (2 ^ 8) with 256; lia.
Qed.

Lemma int_to_from_bytes (e : endian) (bs : list byte) :
  int_to_bytes e (List.length bs) (int_from_bytes e bs) = bs.
Proof.
  destruct e; simpl; [apply le_bytes_le_value|].
  rewrite <- (length_rev bs), le_bytes_le_value; apply rev_involutive.
Qed.

Lemma int_from_bytes_range (e : endian) (bs : list byte) :
  0 <= int_from_bytes e bs < 2 ^ (8 * Z.of_nat (List.length bs)).
Proof.
  destruct e; simpl; [apply le_value_range|].
  rewrite <- (length_rev bs); apply le_value_range.
Qed.

Lemma int_from_bytes_single (e : endian) (b : byte) :
  int_from_bytes e [b] = Z_of_byte b.
Proof. destruct e; simpl; lia. Qed.

(** The values unpacked from a byte string are in the range of their code,
    and pack back to the bytes they were read from. *)
Lemma unpack_reps_inv (bo : byteorder) (c : code) (n : nat) :
  forall bs : list byte,
  bo <> Native -> code_signed c = false ->
  Z.of_nat n * std_size c <= blen bs ->
  flat_map (enc (order_endian sys_byteorder bo) (std_size c))
    (unpack_reps sys_byteorder long64 bo c n bs)
    ++ skipn (n * Z.to_nat (std_size c)) bs = bs
  /\ Forall (fun v => 0 <= v < 2 ^ (8 * std_size c))
       (unpack_reps sys_byteorder long64 bo c n bs).
Proof.
  pose proof (std_size_pos c) as Kpos.
  induction n as [|n IH]; intros bs Hbo U L.
  - split; [reflexivity|constructor].
  - cbn [unpack_reps].
    rewrite code_size_std by exact Hbo.
    set (k := Z.to_nat (std_size c)) in *.
    assert (Lk : List.length (firstn k bs) = k)
      by (rewrite length_firstn; unfold blen in L; lia).
    assert (Ls : Z.of_nat n * std_size c <= blen (skipn k bs))
      by (unfold blen in *; rewrite length_skipn; lia).
    destruct (IH (skipn k bs) Hbo U Ls) as [E F].
    assert (V : unpack_value sys_byteorder long64 bo c (firstn k bs)
                = int_from_bytes (order_endian sys_byteorder bo)
                    (firstn k bs))
      by (unfold unpack_value; rewrite U; reflexivity).
    rewrite V; split.
    + cbn [flat_map].
      unfold enc at 1; fold k.
      rewrite <- Lk at 1.
      rewrite int_to_from_bytes.
      rewrite skipn_skipn in E.
      replace (S n * k)%nat with (n * k + k)%nat by lia.
      rewrite <- app_assoc, E.
      apply firstn_skipn.
    + constructor; [|exact F].
      pose proof (int_from_bytes_range (order_endian sys_byteorder bo)
                    (firstn k bs)) as R.
      rewrite Lk in R; unfold k in R.
      rewrite Z2Nat.id in R by lia; exact R.
Qed.

Lemma unpack_reps_app (bo : byteorder) (c : code) (n : nat) :
  forall bs extra : list byte,
  Z.of_nat n * code_size long64 bo c <= blen bs ->
  unpack_reps sys_byteorder long64 bo c n (bs ++ extra)
  = unpack_reps sys_byteorder long64 bo c n bs.
Proof.
  pose proof (code_size_pos bo c) as Kpos.
  induction n as [|n IH]; intros bs extra L; [reflexivity|].
  cbn [unpack_reps].
  set (k := Z.to_nat (code_size long64 bo c)) in *.
  assert (Hk : (k <= List.length bs)%nat) by (unfold blen in L; lia).
  rewrite firstn_app, skipn_app.
  replace (k - List.length bs)%nat with 0%nat by lia.
  cbn [firstn skipn]; rewrite app_nil_r.
  rewrite IH; [reflexivity|].
  unfold blen in *; rewrite length_skipn; lia.
Qed.

(** deserialize on a buffer of at least four bytes: the width on the
    first two, in the byte order of the host, then the seed, then the
    precision, then the slots. *)
Lemma deserialize_header (b0 b1 b2 b3 : byte) (r : list byte)
    (bo : byteorder) :
  deserialize sys_byteorder long64 parse (b0 :: b1 :: b2 :: b3 :: r) bo
  = d <- np_dtype_of (Z_of_byte b3) ;;
    if blen r <? int_from_bytes sys_byteorder [b0; b1]
                 * std_size (dtype_char long64 d)
    then struct_error
    else _initialize_slots parse
           (mkInstance (Some d) (Some (Z_of_byte b3)))
           (PyInt (Z_of_byte b2))
           (PyInts (unpack_reps sys_byteorder long64
                      (match sys_byteorder with
                       | Little => LittleEndian
                       | Big => BigEndian
                       end)
                      (dtype_char long64 d)
                      (Z.to_nat (int_from_bytes sys_byteorder [b0; b1]))
                      r)).
Proof.
  unfold deserialize.
  set (bo0 := match sys_byteorder with
              | Little => LittleEndian
              | Big => BigEndian
              end).
  assert (Hn : bo0 <> Native)
    by (unfold bo0; destruct sys_byteorder; discriminate).
  assert (C1 : struct_calcsize long64 bo0
                 [(1%nat, cH); (1%nat, cB); (1%nat, cB)] = 4)
    by (unfold bo0; destruct sys_byteorder; reflexivity).
  set (buf := b0 :: b1 :: b2 :: b3 :: r).
  assert (Lb : blen buf = 4 + blen r)
    by (unfold buf, blen; cbn [List.length]; lia).
  assert (Lr : 0 <= blen r) by (unfold blen; lia).
  pose proof (int_from_bytes_range sys_byteorder [b0; b1]) as Rw.
  cbn [List.length] in Rw.
  assert (H1 : unpack_at sys_byteorder long64 bo0 0
                 [(1%nat, cH); (1%nat, cB); (1%nat, cB)] buf
               = [int_from_bytes sys_byteorder [b0; b1];
                  Z_of_byte b2; Z_of_byte b3]).
  { rewrite <- (int_from_bytes_single sys_byteorder b2).
    rewrite <- (int_from_bytes_single sys_byteorder b3).
    unfold bo0, buf; destruct sys_byteorder; reflexivity. }
  unfold struct_unpack_from at 1.
  rewrite C1.
  unfold resolve_offset at 1.
  change (0 <? 0) with false; cbv iota.
  destruct (Z.ltb_spec (blen buf - 0) 4); [lia|].
  cbn [bind]; change (Z.to_nat 0) with 0%nat; cbn [skipn].
  rewrite H1.
  destruct (np_dtype_of (Z_of_byte b3)) as [d|e]; [|reflexivity].
  cbn [bind].
  pose proof (std_size_pos (dtype_char long64 d)) as Kpos.
  unfold struct_unpack_from.
  assert (C2 : struct_calcsize long64 bo0
                 [(Z.to_nat (int_from_bytes sys_byteorder [b0; b1]),
                   dtype_char long64 d)]
               = int_from_bytes sys_byteorder [b0; b1]
                 * std_size (dtype_char long64 d)).
  { unfold struct_calcsize; cbn [calcsize_from].
    rewrite align_std, code_size_std by exact Hn.
    rewrite Z2Nat.id by lia; lia. }
  rewrite C2.
  unfold resolve_offset.
  change (4 <? 0) with false; cbv iota.
  rewrite Lb.
  replace (4 + blen r - 4) with (blen r) by lia.
  destruct (blen r <? _); [reflexivity|].
  cbn [bind]; change (Z.to_nat 4) with 4%nat.
  unfold buf; cbn [skipn unpack_at].
  rewrite align_std by exact Hn.
  rewrite Z.sub_diag; change (Z.to_nat 0) with 0%nat; cbn [skipn].
  rewrite app_nil_r; reflexivity.
Qed.

Lemma unpack_reps_count (bo : byteorder) (c : code) (n : nat) :
  forall bs : list byte,
  List.length (unpack_reps sys_byteorder long64 bo c n bs) = n.
Proof. induction n as [|n IH]; intros bs; simpl; auto. Qed.

Lemma np_dtype_of_inv (p : Z) (d : np_dtype) :
  np_dtype_of p = Ok d -> p = itemsize d.
Proof.
  unfold np_dtype_of.
  destruct p as [|q|q]; try discriminate.
  repeat (destruct q as [q|q|]; try discriminate);
    intros H; inversion H; reflexivity.
Qed.

Lemma np_dtype_of_other (p : Z) :
  ~ In p [1; 2; 4; 8] -> np_dtype_of p = Raise (Exn TypeError None).
Proof.
  intros H.
  destruct (np_dtype_of p) as [d|e] eqn:E.
  - apply np_dtype_of_inv in E; exfalso; apply H.
    destruct d; simpl in *; auto.
  - unfold np_dtype_of in E.
    destruct p as [|q|q]; try congruence.
    repeat (destruct q as [q|q|]; try congruence).
Qed.

(** A buffer deserialize accepts starts with the wire layout of the
    sketch it returns, in the byte order of the host. *)
Lemma deserialize_inv (buf : list byte) (bo : byteorder) (s : LeanMinHash) :
  deserialize sys_byteorder long64 parse buf bo = Ok s ->
  exists (d : np_dtype) (z : Z) (hv : list Z) (rest : list byte),
    buf = wire sys_byteorder (std_size (dtype_char long64 d))
            (Z.of_nat (List.length hv)) z (itemsize d) hv ++ rest
    /\ s = mkLeanMinHash (PyInt z) hv (Some d) (Some (itemsize d))
    /\ 0 <= z < 2 ^ 8
    /\ Z.of_nat (List.length hv) < 2 ^ 16
    /\ Forall (fun v => 0 <= v < 2 ^ (8 * std_size (dtype_char long64 d)))
         hv.
Proof.
  intros H.
  destruct buf as [|b0 [|b1 [|b2 [|b3 r]]]];
    try (exfalso; revert H; clear; destruct sys_byteorder; discriminate).
  rewrite deserialize_header in H.
  destruct (np_dtype_of (Z_of_byte b3)) as [d|e] eqn:Ed; [|discriminate].
  cbn [bind] in H.
  apply np_dtype_of_inv in Ed.
  pose proof (int_from_bytes_range sys_byteorder [b0; b1]) as Rw.
  cbn [List.length] in Rw; change (8 * Z.of_nat 2) with 16 in Rw.
  pose proof (std_size_pos (dtype_char long64 d)) as Kpos.
  set (w := int_from_bytes sys_byteorder [b0; b1]) in *.
  destruct (Z.ltb_spec (blen r) (w * std_size (dtype_char long64 d)));
    [discriminate|].
  unfold _initialize_slots in H; rewrite parse_ints in H.
  cbn [bind inst_dtype inst_n_bytes] in H.
  set (bo0 := match sys_byteorder with
              | Little => LittleEndian
              | Big => BigEndian
              end) in *.
  assert (Hn : bo0 <> Native)
    by (unfold bo0; destruct sys_byteorder; discriminate).
  assert (He : order_endian sys_byteorder bo0 = sys_byteorder)
    by (unfold bo0; destruct sys_byteorder; reflexivity).
  set (hv := unpack_reps sys_byteorder long64 bo0 (dtype_char long64 d)
               (Z.to_nat w) r) in *.
  assert (Lhv : List.length hv = Z.to_nat w) by apply unpack_reps_count.
  destruct (unpack_reps_inv bo0 (dtype_char long64 d) (Z.to_nat w) r Hn
              (dtype_char_unsigned d)) as [E F]; [lia|].
  fold hv in E, F; rewrite He in E.
  exists d, (Z_of_byte b2), hv,
    (skipn (Z.to_nat w * Z.to_nat (std_size (dtype_char long64 d))) r).
  split; [|split; [inversion H; rewrite Ed; reflexivity|]].
  - unfold wire, enc.
    rewrite Lhv, Z2Nat.id by lia.
    rewrite <- Ed.
    rewrite <- (int_from_bytes_single sys_byteorder b2).
    rewrite <- (int_from_bytes_single sys_byteorder b3).
    change (Z.to_nat 2) with (List.length [b0; b1]).
    change (Z.to_nat 1) with (List.length [b2]) at 1.
    change (Z.to_nat 1) with (List.length [b3]).
    unfold w; rewrite !int_to_from_bytes.
    cbn [app]; do 4 f_equal.
    symmetry; exact E.
  - pose proof (Z_of_byte_range b2).
    change (2 ^ 8) with 256; change (2 ^ 16) with 65536.
    change (2 ^ 16) with 65536 in Rw.
    repeat split; try lia; exact F.
Qed.

(** X3: a sketch that deserialize returns is well formed: its seed is an
    integer of one byte, its dtype is bound and its n_bytes is the size of
    that dtype, it has at most 65535 slots, each in the range of its code,
    and the buffer holds the header and all the slots. *)
Theorem deserialize_result_well_formed (buf : list byte) (bo : byteorder)
    (s : LeanMinHash) :
  deserialize sys_byteorder long64 parse buf bo = Ok s ->
  exists (z : Z) (d : np_dtype),
    seed s = PyInt z /\ 0 <= z <= 255
    /\ dtype s = Some d /\ n_bytes s = Some (itemsize d)
    /\ Z.of_nat (len s) <= 65535
    /\ Forall (fun v => 0 <= v < 2 ^ (8 * std_size (dtype_char long64 d)))
         (hashvalues s)
    /\ 4 + Z.of_nat (len s) * std_size (dtype_char long64 d) <= blen buf.
Proof.
  intros H.
  destruct (deserialize_inv buf bo s H)
    as (d & z & hv & rest & Hb & Hs & Hz & Hw & Hhv).
  exists z, d; subst s; unfold len; cbn [seed dtype n_bytes hashvalues].
  change (2 ^ 8) with 256 in Hz; change (2 ^ 16) with 65536 in Hw.
  repeat split; try lia; try exact Hhv.
  pose proof (std_size_pos (dtype_char long64 d)) as Kpos.
  rewrite Hb; unfold blen; rewrite length_app, Nat2Z.inj_add.
  fold (blen (wire sys_byteorder (std_size (dtype_char long64 d))
                (Z.of_nat (List.length hv)) z (itemsize d) hv)).
  rewrite wire_length by lia; lia.
Qed.

(** X7: deserialize reads the header and the slots the header declares and
    nothing after them: bytes appended to a buffer it accepts do not change
    the sketch it returns. *)
Theorem deserialize_ignores_trailing_bytes (buf extra : list byte)
    (bo bo' : byteorder) (s : LeanMinHash) :
  deserialize sys_byteorder long64 parse buf bo = Ok s ->
  deserialize sys_byteorder long64 parse (buf ++ extra) bo' = Ok s.
Proof.
  intros H.
  destruct (deserialize_inv buf bo s H)
    as (d & z & hv & rest & Hb & Hs & Hz & Hw & Hhv).
  rewrite Hb, <- app_assoc, Hs.
  apply deserialize_wire; assumption.
Qed.

(** X2: the round trip the other way: the sketch deserialize returns,
    serialized at offset 0 over the buffer it was read from, in the byte
    order of the host, leaves every byte of that buffer as it was, when the
    buffer is at least bytesize bytes long. *)
Theorem reserialize_in_place (buf : list byte) (bo bo' : byteorder)
    (s : LeanMinHash) :
  deserialize sys_byteorder long64 parse buf bo = Ok s ->
  bo' <> Native -> order_endian sys_byteorder bo' = sys_byteorder ->
  (exists size, bytesize long64 s Native = Ok size /\ size <= blen buf) ->
  serialize sys_byteorder long64 s (ByteArray buf) bo' 0
  = Ok (ByteArray buf).
Proof.
  intros H Hbo He (size & Hsz & Hle).
  destruct (deserialize_inv buf bo s H)
    as (d & z & hv & rest & Hb & Hs & Hz & Hw & Hhv).
  pose proof (std_size_pos (dtype_char long64 d)) as Kpos.
  pose proof (std_char_le_itemsize d) as Hk.
  subst s.
  rewrite bytesize_value, native_char_size in Hsz.
  inversion Hsz; subst size; clear Hsz.
  assert (Lw : blen (wire sys_byteorder (std_size (dtype_char long64 d))
                       (Z.of_nat (List.length hv)) z (itemsize d) hv)
               = 4 + Z.of_nat (List.length hv)
                     * std_size (dtype_char long64 d))
    by (apply wire_length; lia).
  rewrite (serialize_wire _ d z); try reflexivity; try assumption;
    unfold len; cbn [hashvalues]; try lia.
  - rewrite He.
    unfold splice; change (Z.to_nat 0) with 0%nat; cbn [firstn app Nat.add].
    rewrite Hb at 1.
    rewrite skipn_exact by reflexivity.
    rewrite <- Hb; reflexivity.
  - rewrite Hb at 1; unfold blen; rewrite length_app, Nat2Z.inj_add.
    unfold blen in Lw; rewrite Lw; lia.
Qed.

(** X4: on a buffer of fewer than four bytes deserialize raises
    [struct.error]. *)
Theorem deserialize_short_buffer (buf : list byte) (bo : byteorder) :
  blen buf < 4 ->
  deserialize sys_byteorder long64 parse buf bo
  = Raise (Exn StructError None).
Proof.
  intros H; unfold deserialize, struct_unpack_from.
  replace (struct_calcsize long64 _ [(1%nat, cH); (1%nat, cB); (1%nat, cB)])
    with 4 by (destruct sys_byteorder; reflexivity).
  unfold resolve_offset.
  change (0 <? 0) with false; cbv iota.
  destruct (Z.ltb_spec (blen buf - 0) 4); [reflexivity|lia].
Qed.

(** X5: when the fourth byte of the buffer, the precision, is none of 1,
    2, 4 and 8, deserialize raises the TypeError of [np.dtype]. *)
Theorem deserialize_rejects_precision (buf : list byte) (bo : byteorder) :
  4 <= blen buf ->
  ~ In (Z_of_byte (nth 3 buf x00)) [1; 2; 4; 8] ->
  deserialize sys_byteorder long64 parse buf bo
  = Raise (Exn TypeError None).
Proof.
  intros L P.
  destruct buf as [|b0 [|b1 [|b2 [|b3 r]]]];
    try (unfold blen in L; simpl in L; lia).
  cbn [nth] in P.
  rewrite deserialize_header, (np_dtype_of_other _ P); reflexivity.
Qed.

(** X6: when the buffer holds fewer slot bytes than the header declares,
    deserialize raises [struct.error]. *)
Theorem deserialize_truncated_slots (buf : list byte) (bo : byteorder)
    (d : np_dtype) :
  4 <= blen buf ->
  Z_of_byte (nth 3 buf x00) = itemsize d ->
  blen buf - 4
  < int_from_bytes sys_byteorder (firstn 2 buf)
    * std_size (dtype_char long64 d) ->
  deserialize sys_byteorder long64 parse buf bo
  = Raise (Exn StructError None).
Proof.
  intros L P T.
  destruct buf as [|b0 [|b1 [|b2 [|b3 r]]]];
    try (unfold blen in L; simpl in L; lia).
  cbn [nth] in P; cbn [firstn] in T.
  rewrite deserialize_header, P, np_dtype_of_itemsize.
  cbn [bind].
  assert (Lb : blen (b0 :: b1 :: b2 :: b3 :: r) = 4 + blen r)
    by (unfold blen; cbn [List.length]; lia).
  destruct (Z.ltb_spec (blen r)
              (int_from_bytes sys_byteorder [b0; b1]
               * std_size (dtype_char long64 d))); [reflexivity|lia].
Qed.

(** ** More on serialize *)

Lemma pack_value_ok_inv (bo : byteorder) (c : code) (v : pyval)
    (bs : list byte) :
  code_signed c = false ->
  pack_value sys_byteorder long64 bo c v = Ok bs ->
  exists z, v = PyInt z /\ 0 <= z < 2 ^ (8 * code_size long64 bo c).
Proof.
  intros U H; unfold pack_value in H; rewrite U in H.
  destruct v as [z| |]; try discriminate.
  exists z; split; [reflexivity|].
  destruct (Z.leb_spec 0 z); [|discriminate].
  destruct (Z.ltb_spec z (2 ^ (8 * code_size long64 bo c)));
    [lia|discriminate].
Qed.

Lemma pack_reps_ok_inv (bo : byteorder) (c : code) (xs : list Z) :
  forall (tl : list pyval) (p : list byte * list pyval),
  code_signed c = false ->
  pack_reps sys_byteorder long64 bo c (List.length xs) (map PyInt xs ++ tl)
  = Ok p ->
  Forall (fun v => 0 <= v < 2 ^ (8 * code_size long64 bo c)) xs
  /\ snd p = tl.
Proof.
  induction xs as [|x xs IH]; intros tl p U H.
  - inversion H; split; [constructor|reflexivity].
  - cbn [List.length map app pack_reps] in H.
    destruct (pack_value sys_byteorder long64 bo c (PyInt x)) as [bs|] eqn:E;
      cbn [bind] in H; [|discriminate].
    destruct (pack_reps sys_byteorder long64 bo c (List.length xs)
                (map PyInt xs ++ tl)) as [r|] eqn:E';
      cbn [bind] in H; [|discriminate].
    destruct (IH tl r U E') as [F T].
    inversion H; subst p; cbn [snd].
    split; [|exact T].
    constructor; [|exact F].
    destruct (pack_value_ok_inv bo c (PyInt x) bs U E) as (z & Ez & Rz).
    inversion Ez; subst; exact Rz.
Qed.

(** What a successful serialize tells about the sketch: the packing of
    each field went through. *)
Lemma serialize_ok_fits (s : LeanMinHash) (d : np_dtype) (data : list byte)
    (bo : byteorder) (offset : Z) (b : buffer) :
  dtype s = Some d ->
  serialize sys_byteorder long64 s (ByteArray data) bo offset = Ok b ->
  (exists z, seed s = PyInt z /\ 0 <= z <= 255)
  /\ Z.of_nat (len s) <= 65535
  /\ Forall (fun v => 0 <= v < 2 ^ (8 * code_size long64 bo
                                          (dtype_char long64 d)))
       (hashvalues s)
  /\ 1 + 4 + 1 + Z.of_nat (len s) * itemsize d <= blen data.
Proof.
  intros Hd; rewrite (serialize_unfold s d) by exact Hd.
  destruct (Z.ltb_spec (blen data)
              (1 + 4 + 1 + Z.of_nat (len s) * itemsize d)); [discriminate|].
  unfold struct_pack_into.
  destruct (negb _); [discriminate|].
  destruct (resolve_offset _ _ _) as [pos|]; cbn [bind]; [|discriminate].
  unfold serialize_fmt; cbn [pack_from pack_reps].
  destruct (pack_value sys_byteorder long64 bo cH
              (PyInt (Z.of_nat (len s)))) as [b1|] eqn:E1;
    cbn [bind fst snd]; [|discriminate].
  destruct (pack_value sys_byteorder long64 bo cB (seed s)) as [b2|] eqn:E2;
    cbn [bind fst snd]; [|discriminate].
  destruct (pack_value sys_byteorder long64 bo cB (PyInt (itemsize d)))
    as [b3|] eqn:E3; cbn [bind fst snd]; [|discriminate].
  destruct (pack_reps sys_byteorder long64 bo (dtype_char long64 d) (len s)
              (map PyInt (hashvalues s))) as [p4|] eqn:E4;
    cbn [bind]; [|discriminate].
  intros _.
  apply pack_value_ok_inv in E1; [|reflexivity].
  apply pack_value_ok_inv in E2; [|reflexivity].
  destruct E1 as (w & Ew & Rw), E2 as (z & Ez & Rz).
  inversion Ew; subst w.
  assert (S2 : code_size long64 bo cH = 2) by (destruct bo; reflexivity).
  assert (S1 : code_size long64 bo cB = 1) by (destruct bo; reflexivity).
  rewrite S2 in Rw; rewrite S1 in Rz.
  change (2 ^ (8 * 2)) with 65536 in Rw; change (2 ^ (8 * 1)) with 256 in Rz.
  rewrite <- (app_nil_r (map PyInt (hashvalues s))) in E4.
  unfold len in E4.
  apply pack_reps_ok_inv in E4; [|apply dtype_char_unsigned].
  split; [exists z; split; [exact Ez|lia]|].
  split; [lia|]; split; [apply E4|assumption].
Qed.

(** X8: serialize raises its ValueError exactly when the whole buffer is
    shorter than 1 + 4 + 1 + width * itemsize bytes, the value of
    bytesize, whatever the offset and the byte order. *)
Theorem serialize_ValueError_iff (s : LeanMinHash) (d : np_dtype)
    (data : list byte) (bo : byteorder) (offset : Z) :
  dtype s = Some d ->
  (serialize sys_byteorder long64 s (ByteArray data) bo offset
   = Raise (Exn ValueError (Some
       "The buffer does not have enough space                    for holding this MinHash."%string))
   <-> blen data < 1 + 4 + 1 + Z.of_nat (len s) * itemsize d).
Proof.
  intros Hd; split.
  - intros H.
    destruct (Z.lt_ge_cases (blen data)
                (1 + 4 + 1 + Z.of_nat (len s) * itemsize d)) as [L|L];
      [exact L|].
    apply (serialize_past_guard_raises s d data bo offset _ Hd L) in H.
    discriminate.
  - intros L; apply (serialize_guard_any_offset s d); assumption.
Qed.

(** X9: a serialize that succeeds keeps the length of the buffer and
    changes no byte before the position it writes at (the offset, counted
    from the end when negative) nor from that position plus the size of the
    format on. *)
Theorem serialize_writes_in_bounds (s : LeanMinHash) (d : np_dtype)
    (data : list byte) (bo : byteorder) (offset : Z) (b : buffer) :
  dtype s = Some d ->
  serialize sys_byteorder long64 s (ByteArray data) bo offset = Ok b ->
  exists data' : list byte,
    b = ByteArray data'
    /\ List.length data' = List.length data
    /\ forall (i : nat) (x : byte),
         Z.of_nat i < (if offset <? 0 then offset + blen data else offset)
         \/ (if offset <? 0 then offset + blen data else offset)
            + struct_calcsize long64 bo (serialize_fmt long64 (len s) d)
            <= Z.of_nat i ->
         nth i data' x = nth i data x.
Proof.
  intros Hd H.
  destruct (serialize_splices s d data bo offset b Hd H)
    as (pos & bs & Hb & Hl & Hp & H0 & H1).
  exists (splice data pos bs); split; [exact Hb|].
  split; [apply splice_length; assumption|].
  intros i x Hi; rewrite <- Hp, <- Hl in Hi.
  apply splice_outside; assumption.
Qed.

(** X11: serialize does not truncate: it succeeds only on a sketch whose
    seed is an integer of one byte, whose width is at most 65535 and whose
    slots are in the range of their code; past its guard, a sketch with a
    seed outside 0..255 gets [struct.error]. *)
Theorem serialize_success_needs_fit (s : LeanMinHash) (d : np_dtype)
    (data : list byte) (bo : byteorder) (offset : Z) :
  dtype s = Some d ->
  (forall b : buffer,
     serialize sys_byteorder long64 s (ByteArray data) bo offset = Ok b ->
     (exists z, seed s = PyInt z /\ 0 <= z <= 255)
     /\ Z.of_nat (len s) <= 65535
     /\ Forall (fun v => 0 <= v < 2 ^ (8 * code_size long64 bo
                                             (dtype_char long64 d)))
          (hashvalues s))
  /\ (forall z : Z,
        seed s = PyInt z -> z < 0 \/ 255 < z ->
        1 + 4 + 1 + Z.of_nat (len s) * itemsize d <= blen data ->
        serialize sys_byteorder long64 s (ByteArray data) bo offset
        = Raise (Exn StructError None)).
Proof.
  intros Hd; split.
  - intros b H.
    destruct (serialize_ok_fits s d data bo offset b Hd H)
      as (Hz & Hw & Hhv & _); auto.
  - intros z Hs Hz L.
    destruct (serialize sys_byteorder long64 s (ByteArray data) bo offset)
      as [b|e] eqn:E.
    + destruct (serialize_ok_fits s d data bo offset b Hd E)
        as ((z' & Hs' & Hz') & _).
      rewrite Hs in Hs'; inversion Hs'; lia.
    + f_equal.
      apply (serialize_past_guard_raises s d data bo offset e Hd L E).
Qed.

(** X19: where a C long has 8 bytes, the native byte order pads the header
    to 8 bytes before 8-byte slots, two more than bytesize counts: a
    sketch of 8-byte slots serialized in the native order at offset 0 of a
    buffer of bytesize bytes gets [struct.error]. *)
Theorem native_serialize_of_8_byte_slots (s : LeanMinHash)
    (data : list byte) :
  long64 = true -> dtype s = Some U8 ->
  bytesize long64 s Native = Ok (blen data) ->
  serialize sys_byteorder long64 s (ByteArray data) Native 0
  = Raise (Exn StructError None).
Proof.
  intros Hl Hd Hsz.
  destruct s as [sd hv dt nb]; cbn [dtype] in Hd; subst dt.
  rewrite bytesize_value, native_char_size in Hsz.
  change (itemsize U8) with 8 in Hsz.
  assert (Hlen : 1 + 4 + 1 + Z.of_nat (List.length hv) * 8 = blen data)
    by congruence.
  rewrite (serialize_unfold _ U8) by reflexivity.
  unfold len; cbn [hashvalues seed].
  change (itemsize U8) with 8.
  destruct (Z.ltb_spec (blen data)
              (1 + 4 + 1 + Z.of_nat (List.length hv) * 8)); [lia|].
  unfold struct_pack_into.
  replace (Nat.eqb _ _) with true
    by (symmetry; apply Nat.eqb_eq; cbn; rewrite length_map; lia).
  cbn [negb].
  assert (C : struct_calcsize long64 Native
                (serialize_fmt long64 (List.length hv) U8)
              = 8 + Z.of_nat (List.length hv) * 8)
    by (rewrite Hl; unfold struct_calcsize, serialize_fmt; cbn; lia).
  rewrite C; unfold resolve_offset.
  change (0 <? 0) with false; cbv iota.
  destruct (Z.ltb_spec (blen data - 0)
              (8 + Z.of_nat (List.length hv) * 8)); [reflexivity|lia].
Qed.

(** ** More on union *)

Lemma union_check_inv (m0 : LeanMinHash) (lmhs : list LeanMinHash) :
  existsb (fun m => negb (pyval_eqb (seed m0) (seed m))
                    || negb (Nat.eqb (len m0) (len m))) lmhs = false ->
  forall m, In m lmhs -> seed m0 = seed m /\ len m0 = len m.
Proof.
  intros E m Hm.
  destruct (pyval_eqb (seed m0) (seed m)) eqn:Es;
    destruct (Nat.eqb (len m0) (len m)) eqn:El;
    try (apply pyval_eqb_eq in Es; apply Nat.eqb_eq in El; auto);
    (assert (X : existsb (fun m => negb (pyval_eqb (seed m0) (seed m))
                     || negb (Nat.eqb (len m0) (len m))) lmhs = true)
       by (apply existsb_exists; exists m; rewrite Es, El; auto);
     congruence).
Qed.

(** X13: union returns a sketch exactly when it is given at least two
    sketches that share seed and width; it looks at nothing else of its
    inputs, their dtypes may differ. *)
Theorem union_succeeds_iff (lmhs : list LeanMinHash) :
  (exists u, union parse lmhs = Ok u)
  <-> (2 <= List.length lmhs)%nat /\ compatible lmhs.
Proof.
  split.
  - intros [u H]; unfold union in H.
    destruct (Nat.ltb_spec (List.length lmhs) 2); [discriminate|].
    split; [assumption|].
    destruct lmhs as [|m0 ms]; [discriminate|].
    destruct (existsb _ (m0 :: ms)) eqn:E; [discriminate|].
    pose proof (union_check_inv m0 (m0 :: ms) E) as A.
    intros a b Ha Hb.
    destruct (A a Ha) as [Sa La], (A b Hb) as [Sb Lb].
    split; congruence.
  - intros [L C].
    destruct lmhs as [|m0 [|m1 ms]]; simpl in L; try lia.
    eexists; apply union_ok; exact C.
Qed.

Lemma is_min_same_elements (a : Z) (l l' : list Z) :
  (forall x, In x l -> In x l') -> (forall x, In x l' -> In x l) ->
  is_min a l -> is_min a l'.
Proof.
  intros S S' [Ha La]; split; [auto|].
  rewrite Forall_forall in *; auto.
Qed.

Lemma reduce_same_elements (n : nat) (r r' : list Z)
    (rs rs' : list (list Z)) :
  rows_of_length n (r :: rs) -> rows_of_length n (r' :: rs') ->
  (forall x, In x (r :: rs) <-> In x (r' :: rs')) ->
  fold_left np_minimum rs r = fold_left np_minimum rs' r'.
Proof.
  intros R R' S.
  inversion R as [|? ? Hr Hrs]; inversion R' as [|? ? Hr' Hrs']; subst.
  assert (L : List.length (fold_left np_minimum rs r) = List.length r)
    by (apply fold_minimum_length; auto).
  assert (L' : List.length (fold_left np_minimum rs' r') = List.length r)
    by (apply fold_minimum_length; auto).
  apply (nth_ext _ _ 0 0); [congruence|].
  intros i Hi; rewrite L in Hi.
  apply (is_min_unique _ _ (map (fun row => nth i row 0) (r' :: rs'))).
  - apply (is_min_same_elements _
             (map (fun row => nth i row 0) (r :: rs))).
    + intros x Hx; apply in_map_iff in Hx as [row [<- Hrow]].
      apply (in_map (fun row => nth i row 0)); apply S; exact Hrow.
    + intros x Hx; apply in_map_iff in Hx as [row [<- Hrow]].
      apply (in_map (fun row => nth i row 0)); apply S; exact Hrow.
    + apply (reduce_is_min (List.length r)); auto.
  - apply (reduce_is_min (List.length r)); auto.
Qed.

(** X14: union depends on the set of its inputs only: two lists of at
    least two compatible sketches with the same members, whatever their
    order and their repetitions, have the same union. *)
Theorem union_of_same_members (l l' : list LeanMinHash) :
  (2 <= List.length l)%nat -> (2 <= List.length l')%nat ->
  compatible l -> (forall m, In m l <-> In m l') ->
  exists u, union parse l = Ok u /\ union parse l' = Ok u.
Proof.
  intros L L' C S.
  assert (C' : compatible l')
    by (intros a b Ha Hb; apply C; apply S; assumption).
  destruct l as [|m0 [|m1 ms]]; simpl in L; try lia.
  destruct l' as [|p0 [|p1 ps]]; simpl in L'; try lia.
  rewrite (union_ok m0 m1 ms C), (union_ok p0 p1 ps C').
  eexists; split; [reflexivity|].
  destruct (C m0 p0) as [Hs Hl]; [simpl; auto|apply S; simpl; auto|].
  do 2 f_equal; [symmetry; exact Hs|].
  apply (reduce_same_elements (len m0)).
    + constructor; [symmetry; exact Hl|].
      rewrite Hl; apply compatible_rows; exact C'.
    + constructor; [reflexivity|apply compatible_rows; exact C].
    + intros x; change (hashvalues p0 :: map hashvalues (p1 :: ps))
        with (map hashvalues (p0 :: p1 :: ps)).
      change (hashvalues m0 :: map hashvalues (m1 :: ms))
        with (map hashvalues (m0 :: m1 :: ms)).
      rewrite !in_map_iff; split; intros [m [E Hm]];
        exists m; (split; [exact E|apply S; exact Hm]).
Qed.

(** X15: a union can be taken in steps: the union of the union of [l1]
    with the sketches of [l2] is the union of [l1] and [l2] together. *)
Theorem union_of_union (l1 l2 : list LeanMinHash) (u : LeanMinHash) :
  union parse l1 = Ok u -> l2 <> [] -> compatible (l1 ++ l2) ->
  exists v, union parse (u :: l2) = Ok v /\ union parse (l1 ++ l2) = Ok v.
Proof.
  intros H N C.
  assert (C1 : compatible l1)
    by (intros a b Ha Hb; apply C; apply in_or_app; auto).
  assert (L1 : (2 <= List.length l1)%nat).
  { unfold union in H.
    destruct (Nat.ltb_spec (List.length l1) 2); [discriminate|assumption]. }
  destruct l1 as [|m0 [|m1 ms]]; simpl in L1; try lia.
  destruct l2 as [|x xs]; [congruence|].
  rewrite (union_ok m0 m1 ms C1) in H; inversion H; subst u; clear H.
  assert (R : rows_of_length (len m0) (map hashvalues (m1 :: ms)))
    by (apply compatible_rows; exact C1).
  assert (Lu : List.length
                 (fold_left np_minimum (map hashvalues (m1 :: ms))
                    (hashvalues m0)) = len m0)
    by (apply fold_minimum_length; auto).
  change ((m0 :: m1 :: ms) ++ x :: xs) with (m0 :: m1 :: (ms ++ x :: xs)).
  change ((m0 :: m1 :: ms) ++ x :: xs) with (m0 :: m1 :: (ms ++ x :: xs))
    in C.
  rewrite (union_ok m0 m1 (ms ++ x :: xs) C).
  rewrite union_ok.
  - cbn [seed hashvalues].
    eexists; split; [reflexivity|].
    do 2 f_equal.
    change (m1 :: ms ++ x :: xs) with ((m1 :: ms) ++ x :: xs).
    rewrite map_app, fold_left_app; reflexivity.
  - intros a b Ha Hb.
    assert (A : forall m, In m (mkLeanMinHash (seed m0)
                                  (fold_left np_minimum
                                     (map hashvalues (m1 :: ms))
                                     (hashvalues m0)) None None :: x :: xs) ->
                seed m = seed m0 /\ len m = len m0).
    { intros m [<-|Hm].
      - unfold len at 1; cbn [seed hashvalues]; auto.
      - apply C; [|simpl; auto].
        right; right; apply in_or_app; right; exact Hm. }
    destruct (A a Ha) as [Sa La], (A b Hb) as [Sb Lb].
    split; congruence.
Qed.

(** X16: what union and copy return has no dtype bound, since they set
    the two slots alone: bytesize and serialize, which read the dtype,
    raise AttributeError on it. *)
Theorem union_and_copy_results_lack_dtype (lmhs : list LeanMinHash)
    (a u : LeanMinHash) (buf : buffer) (bo : byteorder) (offset : Z) :
  union parse lmhs = Ok u \/ copy parse a = Ok u ->
  bytesize long64 u bo = Raise (Exn AttributeError None)
  /\ serialize sys_byteorder long64 u buf bo offset
     = Raise (Exn AttributeError None).
Proof.
  intros H.
  assert (D : dtype u = None).
  { destruct H as [H|H].
    - unfold union in H.
      destruct (_ <? _)%nat; [discriminate|].
      destruct lmhs as [|m0 ms]; [discriminate|].
      destruct (existsb _ _); [discriminate|].
      destruct (np_minimum_reduce _); cbn [bind] in H; [|discriminate].
      unfold _initialize_slots in H.
      destruct (parse _); cbn [bind] in H; [|discriminate].
      inversion H; reflexivity.
    - unfold copy, _initialize_slots in H.
      destruct (parse _); cbn [bind] in H; [|discriminate].
      inversion H; reflexivity. }
  assert (B : forall bo', bytesize long64 u bo'
                          = Raise (Exn AttributeError None))
    by (intros bo'; unfold bytesize, get_dtype; rewrite D; reflexivity).
  split; [apply B|].
  unfold serialize.
  destruct buf; [rewrite B; reflexivity|].
  cbn [bind]; unfold get_dtype; rewrite D; reflexivity.
Qed.

(** ** Several sketches in one buffer *)

(** A serialize that succeeds at a non-negative offset, in a byte order
    that does not align, has written the wire layout there. *)
Lemma serialize_ok_wire (s : LeanMinHash) (d : np_dtype)
    (data data' : list byte) (bo : byteorder) (offset : Z) :
  dtype s = Some d -> bo <> Native -> 0 <= offset ->
  serialize sys_byteorder long64 s (ByteArray data) bo offset
  = Ok (ByteArray data') ->
  exists z : Z,
    seed s = PyInt z /\ 0 <= z < 2 ^ 8
    /\ Z.of_nat (len s) < 2 ^ 16
    /\ Forall (fun v => 0 <= v < 2 ^ (8 * std_size (dtype_char long64 d)))
         (hashvalues s)
    /\ data' = splice data offset
                 (wire (order_endian sys_byteorder bo)
                    (std_size (dtype_char long64 d))
                    (Z.of_nat (len s)) z (itemsize d) (hashvalues s))
    /\ offset + 4 + Z.of_nat (len s) * std_size (dtype_char long64 d)
       <= blen data.
Proof.
  intros Hd Hbo Ho H.
  destruct (serialize_ok_fits s d data bo offset _ Hd H)
    as ((z & Hs & Hz) & Hw & Hhv & Hg).
  rewrite code_size_std in Hhv by exact Hbo.
  destruct (serialize_splices s d data bo offset _ Hd H)
    as (pos & bs & _ & Hl & Hp & _ & Hroom).
  rewrite calcsize_serialize_fmt, code_size_std in Hl by exact Hbo.
  destruct (Z.ltb_spec offset 0); [lia|]; subst pos.
  assert (Hz' : 0 <= z < 2 ^ 8) by (change (2 ^ 8) with 256; lia).
  assert (Hw' : Z.of_nat (len s) < 2 ^ 16)
    by (change (2 ^ 16) with 65536; lia).
  assert (R : offset + 4
              + Z.of_nat (len s) * std_size (dtype_char long64 d)
              <= blen data) by lia.
  rewrite (serialize_wire s d z data bo offset Hd Hs Hz' Hw' Hhv Hbo Hg
             Ho R) in H.
  exists z; repeat split; try assumption; try lia.
  inversion H; reflexivity.
Qed.

(** X18: two sketches packed into one buffer: when a first sketch is
    serialized at offset 0 and a second one at an offset past the bytes
    of the first, both in the byte order of the host, deserialize finds
    the first sketch in the buffer and the second one in the buffer from
    that offset on. *)
Theorem two_sketches_in_one_buffer (s1 s2 : LeanMinHash)
    (d1 d2 : np_dtype) (data buf1 buf2 : list byte) (bo : byteorder)
    (offset : Z) :
  dtype s1 = Some d1 -> n_bytes s1 = Some (itemsize d1) ->
  dtype s2 = Some d2 -> n_bytes s2 = Some (itemsize d2) ->
  bo <> Native -> order_endian sys_byteorder bo = sys_byteorder ->
  serialize sys_byteorder long64 s1 (ByteArray data) bo 0
  = Ok (ByteArray buf1) ->
  4 + Z.of_nat (len s1) * std_size (dtype_char long64 d1) <= offset ->
  serialize sys_byteorder long64 s2 (ByteArray buf1) bo offset
  = Ok (ByteArray buf2) ->
  deserialize sys_byteorder long64 parse buf2 bo = Ok s1
  /\ deserialize sys_byteorder long64 parse
       (skipn (Z.to_nat offset) buf2) bo
     = Ok s2.
Proof.
  intros D1 N1 D2 N2 Hbo He S1 Ho S2.
  pose proof (std_size_pos (dtype_char long64 d1)) as K1.
  pose proof (std_size_pos (dtype_char long64 d2)) as K2.
  destruct (serialize_ok_wire s1 d1 data buf1 bo 0 D1 Hbo (Z.le_refl 0) S1)
    as (z1 & Hs1 & Hz1 & Hw1 & Hv1 & B1 & R1).
  assert (O0 : 0 <= offset) by lia.
  destruct (serialize_ok_wire s2 d2 buf1 buf2 bo offset D2 Hbo O0 S2)
    as (z2 & Hs2 & Hz2 & Hw2 & Hv2 & B2 & R2).
  rewrite He in B1, B2.
  set (W1 := wire sys_byteorder (std_size (dtype_char long64 d1))
               (Z.of_nat (len s1)) z1 (itemsize d1) (hashvalues s1)) in *.
  set (W2 := wire sys_byteorder (std_size (dtype_char long64 d2))
               (Z.of_nat (len s2)) z2 (itemsize d2) (hashvalues s2)) in *.
  assert (L1 : blen W1
               = 4 + Z.of_nat (len s1) * std_size (dtype_char long64 d1))
    by (unfold W1, len; apply wire_length; lia).
  assert (E1 : buf1 = W1 ++ skipn (List.length W1) data).
  { rewrite B1; unfold splice.
    change (Z.to_nat 0) with 0%nat; reflexivity. }
  assert (Lb1 : blen buf1 = blen data).
  { rewrite B1; unfold blen; f_equal.
    apply splice_length; unfold blen in *; lia. }
  assert (Lf : List.length (firstn (Z.to_nat offset) buf1)
               = Z.to_nat offset)
    by (rewrite length_firstn; unfold blen in *; lia).
  split.
  - rewrite B2; unfold splice.
    rewrite E1 at 1.
    rewrite firstn_app, <- app_assoc.
    rewrite firstn_all2 by (unfold blen in L1; lia).
    destruct s1 as [sd1 hv1 dt1 nb1]; cbn [seed dtype n_bytes] in *.
    subst sd1 dt1 nb1.
    unfold W1, len; cbn [hashvalues].
    apply deserialize_wire; unfold len in *; assumption.
  - rewrite B2; unfold splice.
    rewrite skipn_exact by exact Lf.
    destruct s2 as [sd2 hv2 dt2 nb2]; cbn [seed dtype n_bytes] in *.
    subst sd2 dt2 nb2.
    unfold W2, len; cbn [hashvalues].
    apply deserialize_wire; unfold len in *; assumption.
Qed.

(** ** The hash of a sketch *)

Variable hash : pyval * list Z -> Z.

(** X17: sketches that are equal, of equal seeds and elementwise equal
    slots, have the same hash, whatever their dtype and n_bytes. *)
Theorem hash_respects_equals (a b : LeanMinHash) :
  equals a b = true -> __hash__ hash a = __hash__ hash b.
Proof.
  unfold equals, __hash__; intros H.
  apply andb_true_iff in H as [Hs Hh].
  apply pyval_eqb_eq in Hs; apply list_Z_eqb_eq in Hh.
  rewrite Hs, Hh; reflexivity.
Qed.

End Properties.

(** * The properties at concrete sketches *)

Lemma compatible_ABC : compatible [sketch_A; sketch_B; sketch_C].
Proof.
  intros a b [<-|[<-|[<-|[]]]] [<-|[<-|[<-|[]]]]; split; reflexivity.
Defined.

Lemma compatible_AB : compatible [sketch_A; sketch_B].
Proof.
  intros a b [<-|[<-|[]]] [<-|[<-|[]]]; split; reflexivity.
Defined.

(** C3 at [sketch_A] and [sketch_B]: their union is slotwise their
    minimum. *)
Lemma union_slotwise_minimum_witness :
  (2 <= List.length [sketch_A; sketch_B])%nat
  /\ compatible [sketch_A; sketch_B]
  /\ exists u, union parse_array [sketch_A; sketch_B] = Ok u
       /\ (forall m, In m [sketch_A; sketch_B] ->
             seed u = seed m /\ len u = len m)
       /\ (forall i, (i < len u)%nat ->
             is_min (slot i u) (map (slot i) [sketch_A; sketch_B])).
Proof.
  split; [simpl; lia|]; split; [exact compatible_AB|].
  apply (proj1 (union_slotwise_minimum parse_array (fun l => eq_refl))).
  - simpl; lia.
  - exact compatible_AB.
Defined.

(** C9 at [sketch_A], [sketch_B], [sketch_C]: their union in two orders
    and in two groupings. *)
Lemma union_commutative_associative_witness :
  (exists u u',
     union parse_array [sketch_A; sketch_B; sketch_C] = Ok u
     /\ union parse_array [sketch_C; sketch_A; sketch_B] = Ok u'
     /\ u = u' /\ equals u u' = true)
  /\ (exists ab u u',
        union parse_array [sketch_A; sketch_B] = Ok ab
        /\ union parse_array [ab; sketch_C] = Ok u
        /\ union parse_array [sketch_A; sketch_B; sketch_C] = Ok u'
        /\ u = u' /\ equals u u' = true).
Proof.
  split.
  - apply (proj1 (union_commutative_associative parse_array
                    (fun l => eq_refl))).
    + apply Permutation_sym.
      apply (Permutation_cons_append [sketch_A; sketch_B] sketch_C).
    + simpl; lia.
    + exact compatible_ABC.
  - apply (proj2 (union_commutative_associative parse_array
                    (fun l => eq_refl))).
    exact compatible_ABC.
Defined.

(** C7 at one sketch, and at two sketches of different seeds. *)
Lemma union_failures_are_ValueErrors_witness :
  union parse_array [sketch_A]
  = Raise (Exn ValueError (Some "Cannot union less than 2 MinHash"%string))
  /\ exists msg, union parse_array [sketch_A; sketch_D]
                 = Raise (Exn ValueError (Some msg)).
Proof.
  split.
  - apply (proj1 (union_failures_are_ValueErrors parse_array [sketch_A]
                    (or_introl (Nat.le_refl 2)))).
  - eexists.
    refine (proj1 (union_failures_are_ValueErrors parse_array
                     [sketch_A; sketch_D] _)).
    right; exists sketch_A, sketch_D; simpl.
    split; [auto|]; split; [auto|]; left; discriminate.
Defined.

(** C7, as the claim states it, fails: the error of union on one sketch
    and its error on two sketches of different seeds are of one class. *)
Lemma union_failures_share_class :
  ~ (exists e1 e2,
       union parse_array [sketch_A] = Raise e1
       /\ union parse_array [sketch_A; sketch_D] = Raise e2
       /\ exn_cls e1 <> exn_cls e2).
Proof.
  intros (e1 & e2 & H1 & H2 & Hne).
  vm_compute in H1, H2.
  inversion H1; inversion H2; subst.
  apply Hne; reflexivity.
Qed.

(** * The round trip off the byte order of the host *)

Lemma unpack_reps_length (h : endian) (l : bool) (bo : byteorder) (c : code)
    (n : nat) :
  forall bs, List.length (unpack_reps h l bo c n bs) = n.
Proof. induction n as [|n IH]; intros bs; simpl; auto. Qed.

Lemma off_order_never_equal (h : endian) (l : bool) (n : nat) :
  match roundtrip h l parse_array sketch_4x4
          (match h with Little => BigEndian | Big => LittleEndian end) n
  with
  | Ok r => equals r sketch_4x4 = false
  | Raise _ => True
  end.
Proof.
  unfold roundtrip.
  assert (Lb : blen (repeat x00 n) = Z.of_nat n)
    by (unfold blen; rewrite repeat_length; reflexivity).
  destruct (Z.lt_ge_cases (Z.of_nat n) 22) as [Hn|Hn].
  { rewrite (serialize_guard_any_offset h l sketch_4x4 U4);
      [exact I | reflexivity | rewrite Lb; exact Hn]. }
  rewrite (serialize_wire h l sketch_4x4 U4 1);
    [ | reflexivity | reflexivity | lia | cbn; lia
      | repeat constructor; destruct l; cbn; lia
      | destruct h; discriminate
      | rewrite Lb; exact Hn
      | lia
      | rewrite Lb; destruct l; cbn; lia ].
  cbn [bind].
  destruct h, l;
    (match goal with
     | |- context [wire ?a ?b ?c ?d ?e ?f] =>
         let w := eval vm_compute in (wire a b c d e f) in
         change (wire a b c d e f) with w
     end;
     unfold splice; change (Z.to_nat 0) with 0%nat;
     cbn [firstn app Nat.add List.length];
     match goal with
     | |- context [deserialize _ _ _ ?b _] => remember b as buf eqn:Hbuf
     end;
     assert (Hlen : blen buf = Z.of_nat n)
       by (subst buf; unfold blen; cbn [List.length];
           rewrite length_skipn, repeat_length; lia);
     unfold deserialize, struct_unpack_from;
     match goal with
     | |- context [struct_calcsize ?x ?y [(1%nat, cH); (1%nat, cB); (1%nat, cB)]] =>
         change (struct_calcsize x y [(1%nat, cH); (1%nat, cB); (1%nat, cB)])
           with 4
     end;
     unfold resolve_offset at 1; rewrite Hlen;
     change (0 <? 0) with false; cbv iota;
     destruct (Z.ltb_spec (Z.of_nat n - 0) 4); [lia|];
     cbn [bind]; change (Z.to_nat 0) with 0%nat; cbn [skipn];
     match goal with
     | |- context [unpack_at ?a ?b ?c 0 ?f ?bf] =>
         assert (H1 : unpack_at a b c 0 f bf = [1024; 1; 4])
           by (rewrite Hbuf; reflexivity);
         rewrite H1
     end;
     cbn [np_dtype_of bind];
     match goal with
     | |- context [struct_calcsize ?x ?y ?f] =>
         change (struct_calcsize x y f) with 4096
     end;
     unfold resolve_offset;
     change (4 <? 0) with false; cbv iota;
     destruct (Z.ltb_spec (Z.of_nat n - 4) 4096); [exact I|];
     cbn [bind unpack_at];
     match goal with
     | |- context [unpack_reps ?a ?b ?c ?d ?k ?bs ++ []] =>
         pose proof (unpack_reps_length a b c d k bs) as Hhv;
         set (hv := unpack_reps a b c d k bs ++ []) in *
     end;
     unfold _initialize_slots, parse_array; cbn [bind];
     unfold equals; cbn [seed hashvalues sketch_4x4 pyval_eqb];
     destruct (list_Z_eqb hv [10; 20; 30; 40]) eqn:E; [|reflexivity];
     apply list_Z_eqb_eq in E;
     assert (Lhv : List.length hv = Z.to_nat 1024)
       by (unfold hv; rewrite length_app, Hhv; cbn [List.length]; lia);
     rewrite E in Lhv; cbn [List.length] in Lhv; lia).
Qed.

(** C1, what the code does instead: the round trip fails in the byte order
    that is not the host's.  The valid sketch of four 4-byte slots,
    serialized big-endian on a little-endian host (or little-endian on a
    big-endian host) into a buffer of bytesize bytes, deserializes to a
    [struct.error], since the width is read as 1024; whatever the size of
    the buffer, the outcome is never a sketch equal to the original.  In
    the byte order of the host the sketch comes back as it was. *)
Theorem roundtrip_fails_off_host_order (long64 : bool) :
  valid sketch_4x4
  /\ (forall parse : pyval -> exc (list Z),
        roundtrip Little long64 parse sketch_4x4 BigEndian 22
        = Raise (Exn StructError None)
        /\ roundtrip Big long64 parse sketch_4x4 LittleEndian 22
           = Raise (Exn StructError None))
  /\ (forall n : nat,
        match roundtrip Little long64 parse_array sketch_4x4 BigEndian n with
        | Ok r => equals r sketch_4x4 = false
        | Raise _ => True
        end)
  /\ (forall n : nat,
        match roundtrip Big long64 parse_array sketch_4x4 LittleEndian n with
        | Ok r => equals r sketch_4x4 = false
        | Raise _ => True
        end)
  /\ roundtrip Little long64 parse_array sketch_4x4 LittleEndian 22
     = Ok sketch_4x4
  /\ roundtrip Big long64 parse_array sketch_4x4 BigEndian 22
     = Ok sketch_4x4.
Proof.
  split; [exact sketch_4x4_valid|].
  split; [intros parse; destruct long64; split; vm_compute; reflexivity|].
  split; [exact (off_order_never_equal Little long64)|].
  split; [exact (off_order_never_equal Big long64)|].
  destruct long64; split; vm_compute; reflexivity.
Qed.

(** * The further properties at concrete sketches *)

(** Discharges a side condition on concrete data. *)
Ltac concrete :=
  first [ reflexivity
        | discriminate
        | exact compatible_AB
        | exact compatible_ABC
        | cbn; lia
        | repeat constructor; cbn; lia
        | intros; cbn; tauto
        | match goal with
          | |- _ < _ => vm_compute; reflexivity
          end ].

(** X1 at the sketch of four 4-byte slots, little-endian on a
    little-endian host. *)
Lemma roundtrip_in_host_order_witness :
  roundtrip Little true parse_array sketch_4x4 LittleEndian 22
  = Ok sketch_4x4.
Proof.
  apply (roundtrip_in_host_order Little true parse_array
           (fun l => eq_refl) sketch_4x4 U4 1); concrete.
Defined.

(** X2 at the little-endian bytes of the sketch of one 1-byte slot,
    followed by two spare bytes. *)
Lemma reserialize_in_place_witness :
  serialize Little true sketch_1x1
    (ByteArray (bytes_of [1; 0; 1; 1; 7; 0; 0])) LittleEndian 0
  = Ok (ByteArray (bytes_of [1; 0; 1; 1; 7; 0; 0])).
Proof.
  apply (reserialize_in_place Little true parse_array (fun l => eq_refl)
           (bytes_of [1; 0; 1; 1; 7; 0; 0]) BigEndian LittleEndian
           sketch_1x1); try concrete.
  exists 7; split; concrete.
Defined.

(** X3 at the same bytes. *)
Lemma deserialize_result_well_formed_witness :
  exists (z : Z) (d : np_dtype),
    seed sketch_1x1 = PyInt z /\ 0 <= z <= 255
    /\ dtype sketch_1x1 = Some d /\ n_bytes sketch_1x1 = Some (itemsize d)
    /\ Z.of_nat (len sketch_1x1) <= 65535
    /\ Forall (fun v => 0 <= v < 2 ^ (8 * std_size (dtype_char true d)))
         (hashvalues sketch_1x1)
    /\ 4 + Z.of_nat (len sketch_1x1) * std_size (dtype_char true d)
       <= blen (bytes_of [1; 0; 1; 1; 7; 0; 0]).
Proof.
  apply (deserialize_result_well_formed Little true parse_array
           (fun l => eq_refl) (bytes_of [1; 0; 1; 1; 7; 0; 0]) BigEndian
           sketch_1x1); concrete.
Defined.

(** X4 at a buffer of three bytes. *)
Lemma deserialize_short_buffer_witness :
  deserialize Little true parse_array (bytes_of [1; 0; 1]) LittleEndian
  = Raise (Exn StructError None).
Proof.
  apply (deserialize_short_buffer Little true parse_array); concrete.
Defined.

(** X5 at a header whose precision byte is 3. *)
Lemma deserialize_rejects_precision_witness :
  deserialize Little true parse_array (bytes_of [1; 0; 1; 3; 7])
    LittleEndian
  = Raise (Exn TypeError None).
Proof.
  apply (deserialize_rejects_precision Little true parse_array);
    [concrete|].
  intros H; vm_compute in H; intuition discriminate.
Defined.

(** X6 at a header that declares two 1-byte slots before one byte. *)
Lemma deserialize_truncated_slots_witness :
  deserialize Little true parse_array (bytes_of [2; 0; 1; 1; 7])
    LittleEndian
  = Raise (Exn StructError None).
Proof.
  apply (deserialize_truncated_slots Little true parse_array
           (bytes_of [2; 0; 1; 1; 7]) LittleEndian U1); concrete.
Defined.

(** X7 at the bytes of the sketch of one 1-byte slot and two more. *)
Lemma deserialize_ignores_trailing_bytes_witness :
  deserialize Little true parse_array
    (bytes_of [1; 0; 1; 1; 7] ++ bytes_of [9; 9]) BigEndian
  = Ok sketch_1x1.
Proof.
  apply (deserialize_ignores_trailing_bytes Little true parse_array
           (fun l => eq_refl) (bytes_of [1; 0; 1; 1; 7]) (bytes_of [9; 9])
           LittleEndian BigEndian sketch_1x1); concrete.
Defined.

(** X8 at a buffer of six bytes, one fewer than bytesize, whatever the
    offset. *)
Lemma serialize_ValueError_iff_witness :
  serialize Little true sketch_1x1 (ByteArray (repeat xff 6))
    LittleEndian 4
  = Raise (Exn ValueError (Some
      "The buffer does not have enough space                    for holding this MinHash."%string)).
Proof.
  apply (proj2 (serialize_ValueError_iff Little true sketch_1x1 U1
                  (repeat xff 6) LittleEndian 4 eq_refl)); concrete.
Defined.

(** X9 at the sketch of one 1-byte slot written at offset 2 of seven
    bytes. *)
Lemma serialize_writes_in_bounds_witness :
  exists data' : list byte,
    ByteArray (bytes_of [255; 255; 1; 0; 1; 1; 7]) = ByteArray data'
    /\ List.length data' = List.length (repeat xff 7)
    /\ forall (i : nat) (x : byte),
         Z.of_nat i < (if 2 <? 0 then 2 + blen (repeat xff 7) else 2)
         \/ (if 2 <? 0 then 2 + blen (repeat xff 7) else 2)
            + struct_calcsize true LittleEndian
                (serialize_fmt true (len sketch_1x1) U1)
            <= Z.of_nat i ->
         nth i data' x = nth i (repeat xff 7) x.
Proof.
  apply (serialize_writes_in_bounds Little true sketch_1x1 U1
           (repeat xff 7) LittleEndian 2); concrete.
Defined.

(** X10 at the sketch of one 1-byte slot and offset 2 of nine bytes. *)
Lemma serialize_enough_room_witness :
  exists data' : list byte,
    serialize Little true sketch_1x1 (ByteArray (repeat xff 9))
      LittleEndian 2
    = Ok (ByteArray data')
    /\ List.length data' = List.length (repeat xff 9)
    /\ forall (i : nat) (x : byte),
         Z.of_nat i < 2
         \/ 2 + 4 + Z.of_nat (len sketch_1x1)
                    * std_size (dtype_char true U1)
            <= Z.of_nat i ->
         nth i data' x = nth i (repeat xff 9) x.
Proof.
  apply (serialize_enough_room Little true sketch_1x1 U1 1
           (repeat xff 9) LittleEndian 2); concrete.
Defined.

(** X11 at a sketch of seed 300. *)
Lemma serialize_success_needs_fit_witness :
  serialize Little true (mkLeanMinHash (PyInt 300) [7] (Some U1) (Some 1))
    (ByteArray (repeat xff 7)) LittleEndian 0
  = Raise (Exn StructError None).
Proof.
  apply (proj2 (serialize_success_needs_fit Little true
                  (mkLeanMinHash (PyInt 300) [7] (Some U1) (Some 1)) U1
                  (repeat xff 7) LittleEndian 0 eq_refl) 300);
    concrete.
Defined.


(** X13 at [sketch_A] and [sketch_B]. *)
Lemma union_succeeds_iff_witness :
  exists u, union parse_array [sketch_A; sketch_B] = Ok u.
Proof.
  apply (proj2 (union_succeeds_iff parse_array (fun l => eq_refl)
                  [sketch_A; sketch_B])).
  split; concrete.
Defined.

(** X14 at [sketch_A] and [sketch_B], in another order and with a
    repetition. *)
Lemma union_of_same_members_witness :
  exists u, union parse_array [sketch_A; sketch_B] = Ok u
            /\ union parse_array [sketch_B; sketch_A; sketch_A] = Ok u.
Proof.
  apply (union_of_same_members parse_array (fun l => eq_refl)); concrete.
Defined.

(** X15 at the union of [sketch_A] and [sketch_B], then [sketch_C]. *)
Lemma union_of_union_witness :
  exists v,
    union parse_array
      [mkLeanMinHash (PyInt 42) [3; 9; 1; 7] None None; sketch_C] = Ok v
    /\ union parse_array ([sketch_A; sketch_B] ++ [sketch_C]) = Ok v.
Proof.
  apply (union_of_union parse_array (fun l => eq_refl)
           [sketch_A; sketch_B] [sketch_C]); concrete.
Defined.

(** X16 at the union of [sketch_A] and [sketch_B]. *)
Lemma union_and_copy_results_lack_dtype_witness :
  bytesize true (mkLeanMinHash (PyInt 42) [3; 9; 1; 7] None None) Native
  = Raise (Exn AttributeError None)
  /\ serialize Little true
       (mkLeanMinHash (PyInt 42) [3; 9; 1; 7] None None)
       (ByteArray (repeat x00 30)) Native 0
     = Raise (Exn AttributeError None).
Proof.
  apply (union_and_copy_results_lack_dtype Little true parse_array
           [sketch_A; sketch_B] sketch_A).
  left; concrete.
Defined.

(** X17 at [sketch_A] and the sketch of its seed and slots without dtype,
    under a hash that adds the seed and the slots. *)
Lemma hash_respects_equals_witness :
  __hash__ (fun p => match fst p with
                     | PyInt z => z + fold_right Z.add 0 (snd p)
                     | _ => 0
                     end) sketch_A
  = __hash__ (fun p => match fst p with
                       | PyInt z => z + fold_right Z.add 0 (snd p)
                       | _ => 0
                       end)
      (mkLeanMinHash (PyInt 42) [5; 9; 2; 7] None None).
Proof.
  apply hash_respects_equals; concrete.
Defined.

(** X18 at the sketch of one 1-byte slot at offset 0 and the sketch of
    four 4-byte slots at offset 5 of thirty bytes. *)
Lemma two_sketches_in_one_buffer_witness :
  deserialize Little true parse_array
    (bytes_of [1; 0; 1; 1; 7; 4; 0; 1; 4; 10; 0; 0; 0; 20; 0; 0; 0;
               30; 0; 0; 0; 40; 0; 0; 0; 0; 0; 0; 0; 0]) LittleEndian
  = Ok sketch_1x1
  /\ deserialize Little true parse_array
       (skipn (Z.to_nat 5)
          (bytes_of [1; 0; 1; 1; 7; 4; 0; 1; 4; 10; 0; 0; 0; 20; 0; 0; 0;
                     30; 0; 0; 0; 40; 0; 0; 0; 0; 0; 0; 0; 0]))
       LittleEndian
     = Ok sketch_4x4.
Proof.
  apply (two_sketches_in_one_buffer Little true parse_array
           (fun l => eq_refl) sketch_1x1 sketch_4x4 U1 U4
           (repeat x00 30)
           (bytes_of [1; 0; 1; 1; 7; 0; 0; 0; 0; 0; 0; 0; 0; 0; 0; 0; 0;
                      0; 0; 0; 0; 0; 0; 0; 0; 0; 0; 0; 0; 0]));
    concrete.
Defined.

(** X19 at a sketch of one 8-byte slot and a buffer of bytesize, 14,
    bytes. *)
Lemma native_serialize_of_8_byte_slots_witness :
  serialize Little true (mkLeanMinHash (PyInt 1) [7] (Some U8) (Some 8))
    (ByteArray (repeat x00 14)) Native 0
  = Raise (Exn StructError None).
Proof.
  apply native_serialize_of_8_byte_slots; concrete.
Defined.
